(** * AgentCost dashboard: feedback board and attachment uploader

    A shallow embedding of the client-side logic of the feedback page
    (filters, debounced search, pagination, optimistic upvotes, comment
    threads, submission form) and of the [FileUpload] component, with the
    properties the specification states about them.

    Conventions.
    - JavaScript strings are modelled by [string]; a character stands for
      one code unit below 256, so [length] is [String.length], the white
      space removed by [trim] is the part of the ECMAScript set that lies
      in that range, and [toLowerCase] is the Latin-1 part of the Unicode
      lower-case mapping.
    - JavaScript numbers that hold counts, sizes and indices are [Z].
    - React state is a record; a handler is a function from state to
      state.  An asynchronous handler is cut at its [await]s: every
      piece between two suspension points is one atomic step, and the
      network calls it issues are logged in program order. *)

From Stdlib Require Import Ascii String QArith Qround.
From stdpp Require Import base numbers list strings gmap.

#[local] Open Scope string_scope.
#[local] Open Scope list_scope.
#[local] Open Scope Z_scope.

(** ** JavaScript string primitives *)

Module Js.

Definition code (c : ascii) : N := N_of_ascii c.

(** White space and line terminators of [String.prototype.trim]
    below U+0100: TAB, LF, VT, FF, CR, SP and NBSP. *)
Definition isWhiteSpace (c : ascii) : bool :=
  let n := code c in
  ((9 <=? n) && (n <=? 13) || (n =? 32) || (n =? 160))%N.

Fixpoint trimStart (s : string) : string :=
  match s with
  | EmptyString => EmptyString
  | String c s' => if isWhiteSpace c then trimStart s' else s
  end.

Fixpoint trimEnd (s : string) : string :=
  match s with
  | EmptyString => EmptyString
  | String c s' =>
      match trimEnd s' with
      | EmptyString => if isWhiteSpace c then EmptyString else String c EmptyString
      | r => String c r
      end
  end.

Definition trim (s : string) : string := trimEnd (trimStart s).

(** [s.length] *)
Definition length (s : string) : Z := Z.of_nat (String.length s).

(** Truthiness of a string: non-empty. *)
Definition truthy (s : string) : bool :=
  match s with EmptyString => false | _ => true end.

Definition lowerChar (c : ascii) : ascii :=
  let n := code c in
  if ((65 <=? n) && (n <=? 90)
      || (192 <=? n) && (n <=? 222) && negb (n =? 215))%N
  then ascii_of_N (n + 32) else c.

Fixpoint toLowerCase (s : string) : string :=
  match s with
  | EmptyString => EmptyString
  | String c s' => String (lowerChar c) (toLowerCase s')
  end.

(** [s.lastIndexOf(c)] for a one-character needle, scanning from
    position [i]; -1 when the character does not occur. *)
Fixpoint lastIndexOfFrom (c : ascii) (s : string) (i : Z) : Z :=
  match s with
  | EmptyString => -1
  | String a s' =>
      let r := lastIndexOfFrom c s' (i + 1) in
      if 0 <=? r then r else if Ascii.eqb a c then i else -1
  end.

Definition lastIndexOf (c : ascii) (s : string) : Z := lastIndexOfFrom c s 0.

(** [s.slice(start)] for [0 <= start]. *)
Fixpoint sliceFrom (start : nat) (s : string) : string :=
  match start, s with
  | O, _ => s
  | S n, String _ s' => sliceFrom n s'
  | S _, EmptyString => EmptyString
  end.

(** [s.slice(0, n)] for [0 <= n]. *)
Fixpoint sliceTo (n : nat) (s : string) : string :=
  match n, s with
  | S k, String c s' => String c (sliceTo k s')
  | _, _ => EmptyString
  end.

(** [arr.includes(x)] on an array of strings. *)
Definition includes (arr : list string) (x : string) : bool :=
  existsb (String.eqb x) arr.

Fixpoint occurs (c : ascii) (s : string) : bool :=
  match s with
  | EmptyString => false
  | String a s' => Ascii.eqb a c || occurs c s'
  end.

End Js.

(** ** Attachment uploader (FileUpload component) *)

Module FileUpload.

Definition ALLOWED_EXTENSIONS : list string :=
  [".png"; ".jpg"; ".jpeg"; ".gif"; ".webp";
   ".pdf"; ".txt"; ".log"; ".json"; ".csv"].

Definition MAX_FILE_SIZE : Z := 10 * 1024 * 1024.
Definition MAX_FILES : Z := 3.

Definition getExtension (name : string) : string :=
  let dot := Js.lastIndexOf "."%char name in
  if 0 <=? dot then Js.toLowerCase (Js.sliceFrom (Z.to_nat dot) name) else "".

(** A browser [File]: [fid] stands for the identity of the object,
    which is what [p.file === file] compares. *)
Record File := mkFile { fid : nat; fname : string; fsize : Z }.

Record AttachmentMeta := mkMeta {
  id : string;
  name : string;
  stored_name : string;
  type : string;
  size : Z;
  storage : string;
  path : string
}.

Inductive Status := uploading | done | error.

Record PendingFile := mkPending {
  file : File;
  status : Status;
  meta : option AttachmentMeta;
  perror : option string
}.

(** Local state of the component that the upload logic touches. *)
Record Uploader := mkUploader {
  pending : list PendingFile;
  uerror : option string
}.

Definition setError (e : option string) (u : Uploader) : Uploader :=
  {| pending := pending u; uerror := e |}.

Definition setPending (f : list PendingFile -> list PendingFile) (u : Uploader)
  : Uploader :=
  {| pending := f (pending u); uerror := uerror u |}.

(** The validation loop of [uploadFiles]: the message of the first
    offending file, or [None] when the whole batch passes.
    [formatBytes(MAX_FILE_SIZE)] is the constant "10.0 MB". *)
Fixpoint validate (batch : list File) : option string :=
  match batch with
  | [] => None
  | f :: rest =>
      let ext := getExtension (fname f) in
      if negb (Js.includes ALLOWED_EXTENSIONS ext)
      then Some ("File type '" +:+ ext +:+ "' is not allowed")
      else if fsize f >? MAX_FILE_SIZE
      then Some (fname f +:+ " exceeds 10.0 MB limit")
      else validate rest
  end.

(** [uploadFiles] up to its [await]: the new component state and,
    unless the function returned early, the batch for whose files
    [api.uploadAttachment] is called, in call order. *)
Definition uploadFiles_start (attachments : list AttachmentMeta)
    (files : list File) (u : Uploader) : Uploader * option (list File) :=
  let u := setError None u in
  let remaining := MAX_FILES - Z.of_nat (length attachments) in
  if remaining <=? 0 then (setError (Some "Maximum 3 files allowed") u, None)
  else
    let batch := take (Z.to_nat remaining) files in
    match validate batch with
    | Some msg => (setError (Some msg) u, None)
    | None =>
        let newPending := map (fun f => mkPending f uploading None None) batch in
        (setPending (fun prev => prev ++ newPending) u, Some batch)
    end.

(** The upload requests a call of [uploadFiles] issues. *)
Definition issued (r : Uploader * option (list File)) : list File :=
  default [] (snd r).

(** How one [api.uploadAttachment] promise ends: with the server's
    metadata, or with a thrown value ([Some msg] for an [Error] with
    that message, [None] for anything else). *)
Inductive Outcome :=
| Fulfilled (m : AttachmentMeta)
| Rejected (err : option string).

Definition sameFile (f g : File) : bool := Nat.eqb (fid f) (fid g).

(** Body of one task of the fan-out, run when its upload ends. *)
Definition settleTask (f : File) (o : Outcome) (u : Uploader) : Uploader :=
  match o with
  | Fulfilled m =>
      setPending (map (fun p =>
        if sameFile (file p) f then mkPending (file p) done (Some m) (perror p)
        else p)) u
  | Rejected err =>
      let msg := default "Upload failed" err in
      setPending (map (fun p =>
        if sameFile (file p) f then mkPending (file p) error (meta p) (Some msg)
        else p)) u
  end.

(** The component together with the owner of the controlled
    [attachments] list, which [onChange] replaces. *)
Record World := mkWorld {
  uploader : Uploader;
  attachments : list AttachmentMeta
}.

(** A suspended call of [uploadFiles]: the [attachments] its closure
    captured, the batch, and the slots of [Promise.allSettled]. *)
Record Call := mkCall {
  captured : list AttachmentMeta;
  batch : list File;
  results : list (option Outcome)
}.

Definition suspend (captured : list AttachmentMeta) (batch : list File) : Call :=
  mkCall captured batch (replicate (length batch) None).

(** Upload [i] of the batch ends with outcome [o]. *)
Definition resolve (i : nat) (o : Outcome) (cw : Call * World) : Call * World :=
  let (c, w) := cw in
  match batch c !! i with
  | Some f =>
      (mkCall (captured c) (batch c) (<[i := Some o]> (results c)),
       mkWorld (settleTask f o (uploader w)) (attachments w))
  | None => cw
  end.

(** The uploads end in the order [order]; upload [i] ends with
    [outcomes !! i]. *)
Definition resolveAll (outcomes : list Outcome) (order : list nat)
    (cw : Call * World) : Call * World :=
  foldl (fun cw i =>
           match outcomes !! i with
           | Some o => resolve i o cw
           | None => cw
           end) cw order.

(** [Promise.allSettled]: the outcomes in the order of the batch once
    every slot is filled, [None] while some upload is in flight. *)
Fixpoint allSettled (rs : list (option Outcome)) : option (list Outcome) :=
  match rs with
  | [] => Some []
  | Some o :: rs' => cons o <$> allSettled rs'
  | None :: _ => None
  end.

Definition fulfilled (o : Outcome) : option AttachmentMeta :=
  match o with Fulfilled m => Some m | Rejected _ => None end.

(** The part of [uploadFiles] after the [await]; [None] while the
    call is still suspended.  The clean-up of the pending entries is
    scheduled here and runs two seconds later ([cleanup]). *)
Definition uploadFiles_resume (cw : Call * World) : option World :=
  let (c, w) := cw in
  match allSettled (results c) with
  | None => None
  | Some rs =>
      let successful := omap fulfilled rs in
      if (0 <? length successful)%nat
      then Some (mkWorld (uploader w) (captured c ++ successful))
      else Some w
  end.

Definition cleanup (u : Uploader) : Uploader :=
  setPending (List.filter (fun p =>
    match status p with uploading => true | _ => false end)) u.

(** A whole call of [uploadFiles] whose uploads end in the order
    [order]; [None] if some upload never ends. *)
Definition uploadFiles (files : list File) (outcomes : list Outcome)
    (order : list nat) (w : World) : option World :=
  match uploadFiles_start (attachments w) files (uploader w) with
  | (u, None) => Some (mkWorld u (attachments w))
  | (u, Some b) =>
      uploadFiles_resume
        (resolveAll outcomes order
           (suspend (attachments w) b, mkWorld u (attachments w)))
  end.

Definition removeAttachment (i : string) (w : World) : World :=
  mkWorld (uploader w)
          (List.filter (fun a => negb (String.eqb (id a) i)) (attachments w)).

(** *** Vocabulary of the specification *)

(** The rule of the specification for one file: extension in the
    allow-list and at most 10 MiB. *)
Definition valid (f : File) : Prop :=
  getExtension (fname f) ∈ ALLOWED_EXTENSIONS /\ fsize f <= 10485760.

(** The message shown for a file that breaks the rule. *)
Definition rejection (f : File) : string :=
  if Js.includes ALLOWED_EXTENSIONS (getExtension (fname f))
  then fname f +:+ " exceeds 10.0 MB limit"
  else "File type '" +:+ getExtension (fname f) +:+ "' is not allowed".

End FileUpload.

(** ** Feedback page (FeedbackPage component) *)

Module Feedback.

Inductive FeedbackType :=
| feature_request | bug_report | model_request
| general | security_report | performance_issue.

Inductive FeedbackStatus :=
| open | under_review | needs_info | in_progress
| completed | shipped | rejected | duplicate.

Inductive FeedbackPriority := low | medium | high | critical.

Inductive SortBy := recent | popular | oldest.

(** A filter value: "all" or one specific value. *)
Inductive Filter (A : Type) := all | just (a : A).
Arguments all {A}.
Arguments just {A} a.

Record FeedbackItem := mkItem {
  id : string;
  type : FeedbackType;
  title : string;
  description : string;
  status : FeedbackStatus;
  priority : option FeedbackPriority;
  upvotes : Z;
  user_has_upvoted : bool;
  comment_count : Z
}.

Record FeedbackComment := mkComment {
  c_id : string;
  comment : string;
  c_user_name : option string;
  is_admin : bool
}.

Record User := mkUser { name : string; email : string }.

Inductive ToastVariant := success | error.

Record Toast := mkToast { t_id : Z; message : string; variant : ToastVariant }.

Record Query := mkQuery {
  q_type : Filter FeedbackType;
  q_status : Filter FeedbackStatus;
  q_priority : Filter FeedbackPriority;
  q_sortBy : SortBy;
  q_search : string;
  q_limit : Z;
  q_offset : Z
}.

Record ListResponse := mkListResponse { r_items : list FeedbackItem; r_total : Z }.

Record SummaryResponse := mkSummary {
  s_total : Z;
  by_status : list (FeedbackStatus * Z)
}.

(** What an awaited API call yields: its value, or the message
    [parseApiError] extracts from the thrown error. *)
Inductive Result (A : Type) := Ok (a : A) | Err (msg : string).
Arguments Ok {A} a.
Arguments Err {A} msg.

Definition TITLE_MAX : Z := 255.
Definition DESC_MAX : Z := 5000.
Definition COMMENT_MAX : Z := 2000.
Definition PAGE_SIZE : Z := 12.

(** *** State of the page *)

Record Filters := mkFilters {
  typeFilter : Filter FeedbackType;
  statusFilter : Filter FeedbackStatus;
  priorityFilter : Filter FeedbackPriority;
  sortBy : SortBy;
  searchInput : string;
  searchValue : string;
  page : Z
}.

Record Data := mkData {
  items : list FeedbackItem;
  summary : option SummaryResponse;
  listTotal : Z;
  isLoading : bool
}.

Record Discussion := mkDiscussion {
  expandedId : option string;
  commentsById : gmap string (list FeedbackComment);
  commentDrafts : gmap string string;
  commentLoadingId : option string;
  upvoteLoadingId : option string
}.

(** [toastId] is the module-level counter [_toastId]. *)
Record Notify := mkNotify { toasts : list Toast; toastId : Z }.

(** Time in milliseconds, and the pending timeout of the debounce
    effect: the time it is due and the [searchInput] it captured. *)
Record Clock := mkClock { now : Z; debounce : option (Z * string) }.

Record Page := mkPage {
  user : option User;
  filters : Filters;
  data : Data;
  discussion : Discussion;
  notify : Notify;
  clock : Clock
}.

(** *** Handlers as state transformers with a log *)

Inductive Api :=
| listFeedback (q : Query)
| getFeedbackSummary
| getFeedbackComments (feedbackId : string)
| addFeedbackComment (feedbackId comment : string) (user_name : option string)
| toggleFeedbackUpvote (feedbackId : string).

(** The state variables of the component. *)
Inductive Var :=
| v_items | v_summary | v_listTotal | v_isLoading
| v_typeFilter | v_statusFilter | v_priorityFilter | v_sortBy
| v_searchInput | v_searchValue | v_page
| v_expandedId | v_commentsById | v_commentDrafts
| v_commentLoadingId | v_upvoteLoadingId | v_toasts.

(** What a handler does, in program order: it calls the API, calls
    the setter of a state variable, or starts a timer. *)
Inductive Event :=
| Request (a : Api)
| Update (v : Var)
| SetTimeout (ms : Z).

Definition M (A : Type) : Type := Page -> A * Page * list Event.

#[export] Instance M_ret : MRet M := fun A a p => (a, p, []).
#[export] Instance M_bind : MBind M := fun A B f m p =>
  let '(a, p1, l1) := m p in
  let '(b, p2, l2) := f a p1 in
  (b, p2, l1 ++ l2).

Definition get : M Page := fun p => (p, p, []).
Definition request (a : Api) : M unit := fun p => (tt, p, [Request a]).
Definition update (v : Var) (f : Page -> Page) : M unit :=
  fun p => (tt, f p, [Update v]).
Definition timeout (ms : Z) (f : Page -> Page) : M unit :=
  fun p => (tt, f p, [SetTimeout ms]).

Definition exec {A} (m : M A) (p : Page) : Page := snd (fst (m p)).
Definition value {A} (m : M A) (p : Page) : A := fst (fst (m p)).
Definition trace {A} (m : M A) (p : Page) : list Event := snd (m p).

(** The API calls among the events. *)
Definition requests (l : list Event) : list Api :=
  omap (fun e => match e with Request a => Some a | _ => None end) l.

Definition on_filters (f : Filters -> Filters) (p : Page) : Page :=
  mkPage (user p) (f (filters p)) (data p) (discussion p) (notify p) (clock p).
Definition on_data (f : Data -> Data) (p : Page) : Page :=
  mkPage (user p) (filters p) (f (data p)) (discussion p) (notify p) (clock p).
Definition on_discussion (f : Discussion -> Discussion) (p : Page) : Page :=
  mkPage (user p) (filters p) (data p) (f (discussion p)) (notify p) (clock p).
Definition on_notify (f : Notify -> Notify) (p : Page) : Page :=
  mkPage (user p) (filters p) (data p) (discussion p) (f (notify p)) (clock p).
Definition on_clock (f : Clock -> Clock) (p : Page) : Page :=
  mkPage (user p) (filters p) (data p) (discussion p) (notify p) (f (clock p)).

(** Setters; each takes the updater form [prev => ...]. *)

Definition setTypeFilter (v : Filter FeedbackType) : M unit :=
  update v_typeFilter (on_filters (fun s =>
    mkFilters v (statusFilter s) (priorityFilter s) (sortBy s)
              (searchInput s) (searchValue s) (page s))).
Definition setStatusFilter (v : Filter FeedbackStatus) : M unit :=
  update v_statusFilter (on_filters (fun s =>
    mkFilters (typeFilter s) v (priorityFilter s) (sortBy s)
              (searchInput s) (searchValue s) (page s))).
Definition setPriorityFilter (v : Filter FeedbackPriority) : M unit :=
  update v_priorityFilter (on_filters (fun s =>
    mkFilters (typeFilter s) (statusFilter s) v (sortBy s)
              (searchInput s) (searchValue s) (page s))).
Definition setSortBy (v : SortBy) : M unit :=
  update v_sortBy (on_filters (fun s =>
    mkFilters (typeFilter s) (statusFilter s) (priorityFilter s) v
              (searchInput s) (searchValue s) (page s))).
Definition setSearchInput (v : string) : M unit :=
  update v_searchInput (on_filters (fun s =>
    mkFilters (typeFilter s) (statusFilter s) (priorityFilter s) (sortBy s)
              v (searchValue s) (page s))).
Definition setSearchValue (v : string) : M unit :=
  update v_searchValue (on_filters (fun s =>
    mkFilters (typeFilter s) (statusFilter s) (priorityFilter s) (sortBy s)
              (searchInput s) v (page s))).
Definition setPage (f : Z -> Z) : M unit :=
  update v_page (on_filters (fun s =>
    mkFilters (typeFilter s) (statusFilter s) (priorityFilter s) (sortBy s)
              (searchInput s) (searchValue s) (f (page s)))).

Definition setItems (f : list FeedbackItem -> list FeedbackItem) : M unit :=
  update v_items (on_data (fun d =>
    mkData (f (items d)) (summary d) (listTotal d) (isLoading d))).
Definition setSummary (v : option SummaryResponse) : M unit :=
  update v_summary (on_data (fun d =>
    mkData (items d) v (listTotal d) (isLoading d))).
Definition setListTotal (v : Z) : M unit :=
  update v_listTotal (on_data (fun d =>
    mkData (items d) (summary d) v (isLoading d))).
Definition setIsLoading (v : bool) : M unit :=
  update v_isLoading (on_data (fun d =>
    mkData (items d) (summary d) (listTotal d) v)).

Definition setExpandedId (v : option string) : M unit :=
  update v_expandedId (on_discussion (fun d =>
    mkDiscussion v (commentsById d) (commentDrafts d)
                 (commentLoadingId d) (upvoteLoadingId d))).
Definition setCommentsById
    (f : gmap string (list FeedbackComment) -> gmap string (list FeedbackComment))
  : M unit :=
  update v_commentsById (on_discussion (fun d =>
    mkDiscussion (expandedId d) (f (commentsById d)) (commentDrafts d)
                 (commentLoadingId d) (upvoteLoadingId d))).
Definition setCommentDrafts (f : gmap string string -> gmap string string)
  : M unit :=
  update v_commentDrafts (on_discussion (fun d =>
    mkDiscussion (expandedId d) (commentsById d) (f (commentDrafts d))
                 (commentLoadingId d) (upvoteLoadingId d))).
Definition setCommentLoadingId (v : option string) : M unit :=
  update v_commentLoadingId (on_discussion (fun d =>
    mkDiscussion (expandedId d) (commentsById d) (commentDrafts d)
                 v (upvoteLoadingId d))).
Definition setUpvoteLoadingId (v : option string) : M unit :=
  update v_upvoteLoadingId (on_discussion (fun d =>
    mkDiscussion (expandedId d) (commentsById d) (commentDrafts d)
                 (commentLoadingId d) v)).

Definition setToasts (f : list Toast -> list Toast) : M unit :=
  update v_toasts (on_notify (fun n => mkNotify (f (toasts n)) (toastId n))).

(** *** Toasts *)

Definition nextToastId : M Z := fun p =>
  let i := toastId (notify p) + 1 in
  (i, on_notify (fun n => mkNotify (toasts n) i) p, []).

Definition dismissToast (i : Z) : M unit :=
  setToasts (List.filter (fun t => negb (t_id t =? i))).

(** The timer started here runs [dismissToast i] five seconds later. *)
Definition pushToast (message : string) (variant : ToastVariant) : M unit :=
  i ← nextToastId;
  setToasts (fun prev => prev ++ [mkToast i message variant]);;
  timeout 5000 (fun p => p).

(** *** Pagination *)

(** [Math.max(1, Math.ceil(listTotal / PAGE_SIZE))], the quotient
    being a rational number. *)
Definition totalPages (listTotal : Z) : Z :=
  Z.max 1 (Qceiling (inject_Z listTotal / inject_Z PAGE_SIZE)).

Definition paginationShown (p : Page) : bool :=
  listTotal (data p) >? PAGE_SIZE.

Definition previousDisabled (p : Page) : bool :=
  page (filters p) =? 0.

Definition nextDisabled (p : Page) : bool :=
  page (filters p) >=? totalPages (listTotal (data p)) - 1.

Definition onPrevious : M unit :=
  setPage (fun prev => Z.max 0 (prev - 1)).

Definition onNext : M unit :=
  p ← get;
  setPage (fun prev => Z.min (totalPages (listTotal (data p)) - 1) (prev + 1)).

(** *** Filter controls *)

Definition onTypeChange (v : Filter FeedbackType) : M unit :=
  setTypeFilter v;; setPage (fun _ => 0).

Definition onStatusChange (v : Filter FeedbackStatus) : M unit :=
  setStatusFilter v;; setPage (fun _ => 0).

Definition onPriorityChange (v : Filter FeedbackPriority) : M unit :=
  setPriorityFilter v;; setPage (fun _ => 0).

Definition onSortChange (v : SortBy) : M unit :=
  setSortBy v.

(** The hint of a quick entry point ([hintAction]). *)
Definition onHintAction (t : option FeedbackType) (s : option FeedbackStatus)
    (o : option SortBy) : M unit :=
  (match t with Some v => setTypeFilter (just v) | None => mret tt end);;
  (match s with Some v => setStatusFilter (just v) | None => mret tt end);;
  (match o with Some v => setSortBy v | None => mret tt end);;
  setPage (fun _ => 0).

(** *** Debounced search *)

(** The effect on [searchInput]: the previous timeout is cleared and
    a new one is started, due in 400 ms, that captures [s]. *)
Definition armDebounce (s : string) : M unit :=
  timeout 400 (on_clock (fun c => mkClock (now c) (Some (now c + 400, s)))).

(** [onChange] of the search box.  The effect runs again only when
    the rendered [searchInput] has changed. *)
Definition onSearchInput (s : string) : M unit :=
  p ← get;
  setSearchInput s;;
  if String.eqb s (searchInput (filters p)) then mret tt else armDebounce s.

(** The callback of the debounce timeout. *)
Definition commitSearch (s : string) : M unit :=
  setSearchValue (Js.trim s);;
  setPage (fun _ => 0).

(** The clock is no state variable: changing it leaves no event. *)
Definition setClock (f : Clock -> Clock) : M unit :=
  fun p => (tt, on_clock f p, []).

(** [dt] milliseconds pass; a timeout that falls due runs. *)
Definition elapse (dt : Z) : M unit :=
  p ← get;
  let t := now (clock p) + dt in
  match debounce (clock p) with
  | Some (due, s) =>
      if due <=? t
      then commitSearch s;; setClock (fun _ => mkClock t None)
      else setClock (fun c => mkClock t (debounce c))
  | None => setClock (fun c => mkClock t (debounce c))
  end.

(** Keystrokes, each with the time since the previous event and the
    content of the search box it produces. *)
Fixpoint typing (ks : list (Z * string)) : M unit :=
  match ks with
  | [] => mret tt
  | (gap, s) :: ks' => elapse gap;; onSearchInput s;; typing ks'
  end.

Definition clearAllFilters : M unit :=
  p ← get;
  setTypeFilter all;;
  setStatusFilter all;;
  setPriorityFilter all;;
  setSortBy recent;;
  setSearchInput "";;
  setSearchValue "";;
  setPage (fun _ => 0);;
  if String.eqb "" (searchInput (filters p)) then mret tt else armDebounce "".

(** *** Data fetching *)

Definition queryOf (p : Page) : Query :=
  let f := filters p in
  mkQuery (typeFilter f) (statusFilter f) (priorityFilter f) (sortBy f)
          (searchValue f) PAGE_SIZE (page f * PAGE_SIZE).

(** [fetchList] up to its [await], and from the response on. *)
Definition fetchList_begin : M unit :=
  p ← get;
  setIsLoading true;;
  request (listFeedback (queryOf p)).

Definition fetchList_end (r : Result ListResponse) : M unit :=
  match r with
  | Ok response => setItems (fun _ => r_items response);;
                   setListTotal (r_total response)
  | Err msg => pushToast msg error
  end;;
  setIsLoading false.

Definition fetchList (r : Result ListResponse) : M unit :=
  fetchList_begin;; fetchList_end r.

Definition fetchSummary_begin : M unit :=
  request getFeedbackSummary.

Definition fetchSummary_end (r : Result SummaryResponse) : M unit :=
  match r with
  | Ok d => setSummary (Some d)
  | Err _ => setSummary None
  end.

(** *** Upvotes *)

Definition toggleItem (feedbackId : string) (item : FeedbackItem) : FeedbackItem :=
  if negb (String.eqb (id item) feedbackId) then item
  else
    let toggled := negb (user_has_upvoted item) in
    mkItem (id item) (type item) (title item) (description item)
           (status item) (priority item)
           (if toggled then upvotes item + 1 else Z.max 0 (upvotes item - 1))
           toggled (comment_count item).

(** [handleUpvote] up to its [await]; the result tells whether the
    handler went on to the request. *)
Definition handleUpvote_begin (feedbackId : string) : M bool :=
  p ← get;
  match user p with
  | None => pushToast "Sign in to upvote feedback." error;; mret false
  | Some _ =>
      setItems (map (toggleItem feedbackId));;
      setUpvoteLoadingId (Some feedbackId);;
      request (toggleFeedbackUpvote feedbackId);;
      mret true
  end.

(** [handleUpvote] from the response of the toggle request on; the
    two refreshes are started and not awaited. *)
Definition handleUpvote_end (r : Result unit) : M unit :=
  match r with
  | Ok _ => fetchList_begin;; fetchSummary_begin
  | Err msg => pushToast msg error;; fetchList_begin
  end;;
  setUpvoteLoadingId None.

(** *** Comments *)

(** [user?.name || undefined] *)
Definition userName (p : Page) : option string :=
  match user p with
  | Some u => if Js.truthy (name u) then Some (name u) else None
  | None => None
  end.

Definition toggleComments_begin (feedbackId : string) : M bool :=
  p ← get;
  if bool_decide (expandedId (discussion p) = Some feedbackId)
  then setExpandedId None;; mret false
  else
    setExpandedId (Some feedbackId);;
    match commentsById (discussion p) !! feedbackId with
    | Some _ => mret false
    | None => request (getFeedbackComments feedbackId);; mret true
    end.

Definition toggleComments_end (feedbackId : string)
    (r : Result (list FeedbackComment)) : M unit :=
  match r with
  | Ok its => setCommentsById (fun prev => <[feedbackId := its]> prev)
  | Err msg => pushToast msg error
  end.

(** [handleSubmitComment], given what its three awaited calls yield. *)
Definition handleSubmitComment (feedbackId : string)
    (added : Result unit) (fetched : Result (list FeedbackComment))
    (listed : Result ListResponse) : M unit :=
  p ← get;
  let comment :=
    Js.trim (default "" (commentDrafts (discussion p) !! feedbackId)) in
  if negb (Js.truthy comment) then mret tt
  else
    setCommentLoadingId (Some feedbackId);;
    request (addFeedbackComment feedbackId comment (userName p));;
    match added with
    | Err msg => pushToast msg error
    | Ok _ =>
        request (getFeedbackComments feedbackId);;
        match fetched with
        | Err msg => pushToast msg error
        | Ok its =>
            setCommentsById (fun prev => <[feedbackId := its]> prev);;
            setCommentDrafts (fun prev => <[feedbackId := ""]> prev);;
            fetchList listed;;
            pushToast "Comment posted" success
        end
    end;;
    setCommentLoadingId None.

Definition onCommentDraftChange (feedbackId value : string) : M unit :=
  setCommentDrafts (fun prev => <[feedbackId := value]> prev).

(** *** Mounting *)

(** The initial values of the state variables when the query string
    seeds no filter. *)
Definition initial (u : option User) : Page :=
  mkPage u
    (mkFilters all all all recent "" "" 0)
    (mkData [] None 0 true)
    (mkDiscussion None ∅ ∅ None None)
    (mkNotify [] 0)
    (mkClock 0 None).

(** The effects of the first render, in the order they are declared. *)
Definition mount : M unit :=
  armDebounce "";;
  fetchSummary_begin;;
  fetchList_begin.

Definition mounted (u : option User) : Page := exec mount (initial u).

(** *** Order of events *)

#[export] Instance FeedbackType_eq : EqDecision FeedbackType.
Proof. solve_decision. Defined.
#[export] Instance FeedbackStatus_eq : EqDecision FeedbackStatus.
Proof. solve_decision. Defined.
#[export] Instance FeedbackPriority_eq : EqDecision FeedbackPriority.
Proof. solve_decision. Defined.
#[export] Instance SortBy_eq : EqDecision SortBy.
Proof. solve_decision. Defined.
#[export] Instance Filter_eq {A} `{EqDecision A} : EqDecision (Filter A).
Proof. solve_decision. Defined.
#[export] Instance Query_eq : EqDecision Query.
Proof. solve_decision. Defined.
#[export] Instance Api_eq : EqDecision Api.
Proof. solve_decision. Defined.
#[export] Instance Var_eq : EqDecision Var.
Proof. solve_decision. Defined.
#[export] Instance Event_eq : EqDecision Event.
Proof. solve_decision. Defined.

(** Some occurrence of [a] in the log comes before some occurrence of
    [b]. *)
Fixpoint precedes (a b : Event) (l : list Event) : bool :=
  match l with
  | [] => false
  | e :: l' => bool_decide (e = a) && bool_decide (b ∈ l') || precedes a b l'
  end.

(** *** Vocabulary of the specification *)

(** The state right after a keystroke that produced [s]: the box
    shows [s] and the timeout is due 400 ms from now. *)
Definition armed (q : Page) (s : string) : Prop :=
  searchInput (filters q) = s
  /\ debounce (clock q) = Some (now (clock q) + 400, s).

(** Every keystroke changes the content of the box, and time does
    not run backwards. *)
Fixpoint effective (prev : string) (ks : list (Z * string)) : Prop :=
  match ks with
  | [] => True
  | (gap, s) :: ks' => 0 <= gap /\ s <> prev /\ effective s ks'
  end.

(** The content of the box after the keystrokes. *)
Definition final (prev : string) (ks : list (Z * string)) : string :=
  List.last (map snd ks) prev.

(** The log of a [fetchList] from its response on: no request, and
    neither the comment cache nor the drafts are written. *)
Definition quiet (l : list Event) : Prop :=
  requests l = []
  /\ (Update v_commentsById ∉ l) /\ (Update v_commentDrafts ∉ l).

End Feedback.

(** ** Submission form (SubmitFeedbackModal component) *)

Module SubmitFeedbackModal.

Import Feedback.

(** State of the form; [isSubmitting] is a property handed in by the
    page. *)
Record Form := mkForm {
  formType : FeedbackType;
  title : string;
  description : string;
  modelName : string;
  modelProvider : string;
  name : string;
  email : string;
  meta : gmap string string;
  referenceUrl : string;
  environment : string;
  fileAttachments : list FileUpload.AttachmentMeta
}.

(** The form as first rendered for [type], with the signed-in user's
    name and e-mail and the detected environment. *)
Definition initial (type : FeedbackType) (userName userEmail env : string)
  : Form :=
  mkForm type "" "" "" "" userName userEmail ∅ "" env [].

Definition setTitle (v : string) (f : Form) : Form :=
  mkForm (formType f) v (description f) (modelName f) (modelProvider f)
         (name f) (email f) (meta f) (referenceUrl f) (environment f)
         (fileAttachments f).
Definition setDescription (v : string) (f : Form) : Form :=
  mkForm (formType f) (title f) v (modelName f) (modelProvider f)
         (name f) (email f) (meta f) (referenceUrl f) (environment f)
         (fileAttachments f).
Definition setModelName (v : string) (f : Form) : Form :=
  mkForm (formType f) (title f) (description f) v (modelProvider f)
         (name f) (email f) (meta f) (referenceUrl f) (environment f)
         (fileAttachments f).
Definition setModelProvider (v : string) (f : Form) : Form :=
  mkForm (formType f) (title f) (description f) (modelName f) v
         (name f) (email f) (meta f) (referenceUrl f) (environment f)
         (fileAttachments f).
Definition setFormType (v : FeedbackType) (f : Form) : Form :=
  mkForm v (title f) (description f) (modelName f) (modelProvider f)
         (name f) (email f) (meta f) (referenceUrl f) (environment f)
         (fileAttachments f).
Definition setMeta (g : gmap string string -> gmap string string) (f : Form)
  : Form :=
  mkForm (formType f) (title f) (description f) (modelName f) (modelProvider f)
         (name f) (email f) (g (meta f)) (referenceUrl f) (environment f)
         (fileAttachments f).
Definition setReferenceUrl (v : string) (f : Form) : Form :=
  mkForm (formType f) (title f) (description f) (modelName f) (modelProvider f)
         (name f) (email f) (meta f) v (environment f) (fileAttachments f).
Definition setFileAttachments (v : list FileUpload.AttachmentMeta) (f : Form)
  : Form :=
  mkForm (formType f) (title f) (description f) (modelName f) (modelProvider f)
         (name f) (email f) (meta f) (referenceUrl f) (environment f) v.

Definition updateMeta (key value : string) (f : Form) : Form :=
  setMeta (fun prev => <[key := value]> prev) f.

Definition onTitleChange (v : string) (f : Form) : Form :=
  setTitle (Js.sliceTo (Z.to_nat TITLE_MAX) v) f.

Definition onDescriptionChange (v : string) (f : Form) : Form :=
  setDescription (Js.sliceTo (Z.to_nat DESC_MAX) v) f.

Definition modelInfoRequired (f : Form) : bool :=
  bool_decide (formType f = model_request)
  && (Js.length (Js.trim (modelName f)) =? 0)
  && (Js.length (Js.trim (modelProvider f)) =? 0).

Definition canSubmit (isSubmitting : bool) (f : Form) : bool :=
  negb isSubmitting
  && (Js.length (Js.trim (title f)) >=? 3)
  && (Js.length (Js.trim (description f)) >=? 10)
  && negb (modelInfoRequired f).

(** The effect on [formType]. *)
Definition resetPerType (f : Form) : Form :=
  setFileAttachments [] (setReferenceUrl "" (setMeta (fun _ => ∅) f)).

(** [onChange] of the type selector, with the effect it triggers: the
    effect runs only when the rendered [formType] has changed. *)
Definition onFormTypeChange (t : FeedbackType) (f : Form) : Form :=
  if decide (t = formType f) then setFormType t f
  else resetPerType (setFormType t f).

End SubmitFeedbackModal.

(** ** Further parts of the uploader *)

Module FileUploadUi.

Import FileUpload.

(** [attachments.length + pending.filter(uploading).length] *)
Definition totalCount (attachments : list AttachmentMeta) (u : Uploader) : Z :=
  Z.of_nat (length attachments)
  + Z.of_nat (length (List.filter (fun p =>
      match status p with uploading => true | _ => false end) (pending u))).

(** [handleClick]: whether the file picker is opened. *)
Definition handleClick (disabled : bool) (attachments : list AttachmentMeta)
    (u : Uploader) : bool :=
  negb disabled && (totalCount attachments u <? MAX_FILES).

(** [handleDrop], up to the [await] of the call of [uploadFiles] it
    makes; [None] when it makes none. *)
Definition handleDrop (disabled : bool) (files : list File)
    (attachments : list AttachmentMeta) (u : Uploader)
  : option (Uploader * option (list File)) :=
  if disabled then None
  else if (0 <? length files)%nat
       then Some (uploadFiles_start attachments files u)
       else None.

(** [handleFileChange] likewise. *)
Definition handleFileChange (files : list File)
    (attachments : list AttachmentMeta) (u : Uploader)
  : option (Uploader * option (list File)) :=
  if (0 <? length files)%nat
  then Some (uploadFiles_start attachments files u)
  else None.

(** The pending entry a settled upload leaves behind. *)
Definition settled (f : File) (o : Outcome) : PendingFile :=
  match o with
  | Fulfilled m => mkPending f done (Some m) None
  | Rejected err => mkPending f error None (Some (default "Upload failed" err))
  end.

(** The pending entry a call creates for a file. *)
Definition fresh (f : File) : PendingFile := mkPending f uploading None None.

(** What the task of file [f], ending with [o], does to one entry. *)
Definition touch (f : File) (o : Outcome) (p : PendingFile) : PendingFile :=
  if sameFile (file p) f
  then match o with
       | Fulfilled m => mkPending (file p) done (Some m) (perror p)
       | Rejected err =>
           mkPending (file p) error (meta p) (Some (default "Upload failed" err))
       end
  else p.

(** The entries of a batch when the uploads listed in [order] have
    ended. *)
Definition progress (outcomes : list Outcome) (order : list nat)
    (b : list File) : list PendingFile :=
  imap (fun i f =>
          match outcomes !! i with
          | Some o => if bool_decide (i ∈ order) then settled f o else fresh f
          | None => fresh f
          end) b.

(** File objects are told apart by identity. *)
Definition distinct (b : list File) : Prop := NoDup (map fid b).

(** No entry of [l] belongs to a file of [b]. *)
Definition apart (l : list PendingFile) (b : list File) : Prop :=
  forall p f, p ∈ l -> f ∈ b -> sameFile (file p) f = false.

(** Two calls of [uploadFiles] that overlap: the second starts before
    the uploads of the first have ended, so both closures hold the same
    [attachments]; then the first call's uploads end and it resumes, and
    then the second's.  [None] if some upload never ends or a call
    returned early. *)
Definition uploadFiles_overlapping
    (filesA filesB : list File) (outcomesA outcomesB : list Outcome)
    (orderA orderB : list nat) (w : World) : option World :=
  match uploadFiles_start (attachments w) filesA (uploader w) with
  | (_, None) => None
  | (uA, Some bA) =>
      match uploadFiles_start (attachments w) filesB uA with
      | (_, None) => None
      | (uB, Some bB) =>
          let callA := suspend (attachments w) bA in
          let callB := suspend (attachments w) bB in
          match uploadFiles_resume
                  (resolveAll outcomesA orderA
                     (callA, mkWorld uB (attachments w))) with
          | None => None
          | Some wA =>
              uploadFiles_resume (resolveAll outcomesB orderB (callB, wA))
          end
      end
  end.

End FileUploadUi.

(** ** Further parts of the feedback page *)

Module FeedbackUi.

Import Feedback.

(** [s.includes(needle)] on strings. *)
Fixpoint contains (needle s : string) : bool :=
  if String.prefix needle s then true
  else match s with
       | EmptyString => false
       | String _ s' => contains needle s'
       end.

(** [detectEnvironment]: [hasWindow] is [typeof window !== "undefined"],
    [nodeEnv] is [process.env.NODE_ENV] and [apiUrl] is
    [process.env.NEXT_PUBLIC_API_URL]. *)
Definition detectEnvironment (hasWindow : bool) (nodeEnv : string)
    (apiUrl : option string) : string :=
  if negb hasWindow then ""
  else
    let apiUrl := match apiUrl with
                  | Some u => if Js.truthy u then u else ""
                  | None => ""
                  end in
    if contains "localhost" apiUrl || contains "127.0.0.1" apiUrl then "local"
    else if String.eqb nodeEnv "production" then "production"
    else if String.eqb nodeEnv "development" then "development"
    else "".

(** The values of the options of the environment selector. *)
Definition environmentOptions : list string :=
  [""; "production"; "staging"; "development"; "local"].

(** The string values of the enumerations, as the API and the query
    string spell them. *)
Definition typeName (t : FeedbackType) : string :=
  match t with
  | feature_request => "feature_request" | bug_report => "bug_report"
  | model_request => "model_request" | general => "general"
  | security_report => "security_report"
  | performance_issue => "performance_issue"
  end.

Definition statusName (s : FeedbackStatus) : string :=
  match s with
  | open => "open" | under_review => "under_review"
  | needs_info => "needs_info" | in_progress => "in_progress"
  | completed => "completed" | shipped => "shipped"
  | rejected => "rejected" | duplicate => "duplicate"
  end.

Definition priorityName (x : FeedbackPriority) : string :=
  match x with
  | low => "low" | medium => "medium" | high => "high" | critical => "critical"
  end.

Definition sortName (o : SortBy) : string :=
  match o with recent => "recent" | popular => "popular" | oldest => "oldest" end.

(** [Object.keys] of [TYPE_META], [STATUS_STYLES], [PRIORITY_STYLES]. *)
Definition typeKeys : list FeedbackType :=
  [feature_request; bug_report; model_request; general; security_report;
   performance_issue].
Definition statusKeys : list FeedbackStatus :=
  [open; under_review; needs_info; in_progress; completed; shipped; rejected;
   duplicate].
Definition priorityKeys : list FeedbackPriority := [low; medium; high; critical].
Definition sortKeys : list SortBy := [recent; popular; oldest].

(** [url && keys.includes(url) ? url : fallback]: the value of the
    enumeration spelled [url], if [url] is present and is one of the
    keys. *)
Definition seed {A} (nameOf : A -> string) (keys : list A) (fallback : Filter A)
    (url : option string) : Filter A :=
  match url with
  | Some s =>
      if Js.truthy s && Js.includes (map nameOf keys) s
      then match List.find (fun k => String.eqb (nameOf k) s) keys with
           | Some k => just k
           | None => fallback
           end
      else fallback
  | None => fallback
  end.

Definition seedSort (url : option string) : SortBy :=
  match seed sortName sortKeys all url with
  | just o => o
  | all => recent
  end.

(** The initial values of the state variables for a query string with
    the parameters [type], [status], [priority] and [sort_by]. *)
Definition seeded (u : option User)
    (urlType urlStatus urlPriority urlSortBy : option string) : Page :=
  mkPage u
    (mkFilters (seed typeName typeKeys all urlType)
               (seed statusName statusKeys all urlStatus)
               (seed priorityName priorityKeys all urlPriority)
               (seedSort urlSortBy) "" "" 0)
    (mkData [] None 0 true)
    (mkDiscussion None ∅ ∅ None None)
    (mkNotify [] 0)
    (mkClock 0 None).

(** The effects of the first render when the query string names the
    item [focusId]. *)
Definition mountFocused (focusId : option string) : M unit :=
  mount;;
  match focusId with
  | Some i => if Js.truthy i then setExpandedId (Some i) else mret tt
  | None => mret tt
  end.

(** [commentsById[item.id] || []], the comments a card is given. *)
Definition commentsShown (p : Page) (itemId : string) : list FeedbackComment :=
  default [] (commentsById (discussion p) !! itemId).

(** [activeFilters] *)
Definition activeFilters (p : Page) : Z :=
  let f := filters p in
  (match typeFilter f with all => 0 | just _ => 1 end)
  + (match statusFilter f with all => 0 | just _ => 1 end)
  + (match priorityFilter f with all => 0 | just _ => 1 end)
  + (if Js.truthy (searchValue f) then 1 else 0).

(** Whether the "Clear filters" button of the filter bar is rendered. *)
Definition clearShown (p : Page) : bool := activeFilters p >? 0.

(** [commentDrafts[item.id] || ""] *)
Definition commentDraft (p : Page) (itemId : string) : string :=
  match commentDrafts (discussion p) !! itemId with
  | Some d => if Js.truthy d then d else ""
  | None => ""
  end.

(** [disabled] of the Post button of an item. *)
Definition postDisabled (p : Page) (itemId : string) : bool :=
  bool_decide (commentLoadingId (discussion p) = Some itemId)
  || (Js.length (Js.trim (commentDraft p itemId)) =? 0).

(** [disabled] of the upvote button of an item. *)
Definition upvoteDisabled (p : Page) (itemId : string) : bool :=
  bool_decide (upvoteLoadingId (discussion p) = Some itemId).

(** [onKeyDown] of the comment box: Ctrl+Enter or Cmd+Enter submits. *)
Definition onCommentKeyDown (metaKey ctrlKey : bool) (key : string)
    (itemId : string) (added : Result unit)
    (fetched : Result (list FeedbackComment)) (listed : Result ListResponse)
  : M unit :=
  if (metaKey || ctrlKey) && String.eqb key "Enter"
  then handleSubmitComment itemId added fetched listed
  else mret tt.

(** The state of the page that concerns the submission dialog. *)
Record Dialog := mkDialog {
  showModal : bool;
  modalType : FeedbackType;
  isSubmitting : bool;
  submitError : option string
}.

Definition initialDialog : Dialog := mkDialog false feature_request false None.

Definition handleOpenModal (type : FeedbackType) (d : Dialog) : Dialog :=
  mkDialog true type (isSubmitting d) None.

Definition closeModal (d : Dialog) : Dialog :=
  mkDialog false (modalType d) (isSubmitting d) (submitError d).

(** [handleSubmitFeedback] up to the [await] of [api.createFeedback]. *)
Definition handleSubmitFeedback_begin (d : Dialog) : Dialog :=
  mkDialog (showModal d) (modalType d) true None.

(** [handleSubmitFeedback] from the answer [created] of
    [api.createFeedback] on, given what the two awaited refreshes
    yield: the dialog state and what happens on the page. *)
Definition handleSubmitFeedback_end (created : Result unit)
    (listed : Result ListResponse) (summarised : Result SummaryResponse)
    (d : Dialog) : Dialog * M unit :=
  match created with
  | Ok _ =>
      (mkDialog false (modalType d) false (submitError d),
       pushToast "Feedback submitted — thank you!" success;;
       fetchList listed;;
       fetchSummary_begin;;
       fetchSummary_end summarised)
  | Err msg =>
      (mkDialog (showModal d) (modalType d) false (Some msg), mret tt)
  end.

(** The three ways to dismiss the dialog, as wired in the modal with
    [onClose = () => setShowModal(false)]. *)
Definition onEscape (key : string) (d : Dialog) : Dialog :=
  if String.eqb key "Escape" && negb (isSubmitting d) then closeModal d else d.

Definition handleOverlayClick (onOverlay : bool) (d : Dialog) : Dialog :=
  if onOverlay && negb (isSubmitting d) then closeModal d else d.

(** The close and cancel buttons are [disabled] while submitting. *)
Definition onCloseButton (d : Dialog) : Dialog :=
  if isSubmitting d then d else closeModal d.

(** What can happen to the mounted page: the user acts, time passes,
    an answer of the server arrives. *)
Inductive Action :=
| Search (s : string)
| Elapse (dt : Z)
| ClearAll
| ChangeType (v : Filter FeedbackType)
| ChangeStatus (v : Filter FeedbackStatus)
| ChangePriority (v : Filter FeedbackPriority)
| ChangeSort (v : SortBy)
| Hint (t : option FeedbackType) (s : option FeedbackStatus) (o : option SortBy)
| Next
| Previous
| ListFetch
| ListFetched (r : Result ListResponse)
| SummaryFetched (r : Result SummaryResponse)
| Upvote (feedbackId : string)
| UpvoteSettled (r : Result unit)
| ToggleComments (feedbackId : string)
| CommentsFetched (feedbackId : string) (r : Result (list FeedbackComment))
| Draft (feedbackId value : string)
| SubmitComment (feedbackId : string) (added : Result unit)
    (fetched : Result (list FeedbackComment)) (listed : Result ListResponse)
| Dismiss (i : Z).

Definition perform (a : Action) : M unit :=
  match a with
  | Search s => onSearchInput s
  | Elapse dt => elapse dt
  | ClearAll => clearAllFilters
  | ChangeType v => onTypeChange v
  | ChangeStatus v => onStatusChange v
  | ChangePriority v => onPriorityChange v
  | ChangeSort v => onSortChange v
  | Hint t s o => onHintAction t s o
  | Next => onNext
  | Previous => onPrevious
  | ListFetch => fetchList_begin
  | ListFetched r => fetchList_end r
  | SummaryFetched r => fetchSummary_end r
  | Upvote i => handleUpvote_begin i ≫= fun _ => mret tt
  | UpvoteSettled r => handleUpvote_end r
  | ToggleComments i => toggleComments_begin i ≫= fun _ => mret tt
  | CommentsFetched i r => toggleComments_end i r
  | Draft i v => onCommentDraftChange i v
  | SubmitComment i added fetched listed =>
      handleSubmitComment i added fetched listed
  | Dismiss i => dismissToast i
  end.

(** The states the page can be in. *)
Inductive reachable : Page -> Prop :=
| reachable_mounted u : reachable (mounted u)
| reachable_step p a : reachable p -> reachable (exec (perform a) p).

(** *** Vocabulary of the properties *)

(** The toasts on screen have distinct ids, none above the counter. *)
Definition toasts_fresh (p : Page) : Prop :=
  NoDup (map t_id (toasts (notify p)))
  /\ Forall (fun t => t_id t <= toastId (notify p)) (toasts (notify p)).

(** A pending debounce timeout holds the content the box has now. *)
Definition debounce_current (p : Page) : Prop :=
  forall due s, debounce (clock p) = Some (due, s) ->
                s = searchInput (filters p).

(** The page index names a page that exists. *)
Definition page_in_range (p : Page) : Prop :=
  0 <= page (filters p) <= totalPages (listTotal (data p)) - 1.

(** The committed search text has no white space around it. *)
Definition search_trimmed (p : Page) : Prop :=
  Js.trim (searchValue (filters p)) = searchValue (filters p).

(** What holds of the filter state in every state of the page. *)
Definition filters_sane (p : Page) : Prop :=
  debounce_current p /\ 0 <= page (filters p) /\ search_trimmed p.

(** The computation [m] keeps the property [F] of the page. *)
Definition keeps (F : Page -> Prop) {A} (m : M A) : Prop :=
  forall p, F p -> F (exec m p).

(** The count and the flag of an item agree with some set of voters. *)
Definition item_consistent (item : FeedbackItem) : Prop :=
  0 <= upvotes item /\ (user_has_upvoted item = true -> 1 <= upvotes item).

End FeedbackUi.

(** ** Further parts of the submission form *)

Module SubmitPayload.

Import Feedback SubmitFeedbackModal.

(** The argument of [onSubmit]; an absent key is [None]. *)
Record Payload := mkPayload {
  p_type : FeedbackType;
  p_title : string;
  p_description : string;
  model_name : option string;
  model_provider : option string;
  user_email : option string;
  user_name : option string;
  metadata : option (gmap string string);
  attachments : option (list FileUpload.AttachmentMeta);
  p_environment : option string
}.

(** [s || undefined] *)
Definition orUndefined (s : string) : option string :=
  if Js.truthy s then Some s else None.

(** The [reduce] over [Object.entries(meta)]. *)
Definition collectMetadata (meta : gmap string string) : gmap string string :=
  omap (fun val => if Js.truthy (Js.trim val) then Some (Js.trim val) else None)
       meta.

Definition referenceLink (url : string) : FileUpload.AttachmentMeta :=
  FileUpload.mkMeta "" url "" "link" 0 "link" url.

Definition allAttachments (f : Form) : list FileUpload.AttachmentMeta :=
  if Js.truthy (Js.trim (referenceUrl f))
  then fileAttachments f ++ [referenceLink (Js.trim (referenceUrl f))]
  else fileAttachments f.

(** [handleSubmit]: the payload handed to [onSubmit], or [None] when
    the handler returns without calling it. *)
Definition handleSubmit (isSubmitting : bool) (f : Form) : option Payload :=
  if negb (canSubmit isSubmitting f) then None
  else
    let metadata := collectMetadata (meta f) in
    let allAttachments := allAttachments f in
    Some (mkPayload
      (formType f) (title f) (description f)
      (if bool_decide (formType f = model_request)
       then Some (modelName f) else None)
      (if bool_decide (formType f = model_request)
       then Some (modelProvider f) else None)
      (orUndefined (email f))
      (orUndefined (name f))
      (if (0 <? size metadata)%nat then Some metadata else None)
      (if (0 <? length allAttachments)%nat then Some allAttachments else None)
      (orUndefined (environment f))).

End SubmitPayload.

(** * Properties *)

(** ** String primitives *)

Module JsFacts.

Import Js.

Lemma lastIndexOfFrom_absent c s i :
  occurs c s = false -> lastIndexOfFrom c s i = -1.
Proof.
  revert i. induction s as [|a s IH]; intros i H; simpl in *; [reflexivity|].
  apply orb_false_iff in H as [Ha Hs].
  rewrite (IH _ Hs), Ha. reflexivity.
Qed.

Lemma lastIndexOfFrom_last c pre suf i :
  0 <= i -> occurs c suf = false ->
  lastIndexOfFrom c (pre +:+ String c suf) i = i + Js.length pre.
Proof.
  revert i. induction pre as [|a pre IH]; intros i Hi H; simpl.
  - rewrite (lastIndexOfFrom_absent _ _ _ H). simpl.
    rewrite Ascii.eqb_refl. unfold Js.length. simpl. lia.
  - rewrite IH by (lia || assumption).
    unfold Js.length. simpl String.length.
    destruct (Z.leb_spec 0 (i + 1 + Z.of_nat (String.length pre))); lia.
Qed.

Lemma sliceFrom_app pre s :
  sliceFrom (String.length pre) (pre +:+ s) = s.
Proof.
  induction pre as [|a pre IH]; simpl; [by destruct s | exact IH].
Qed.

Lemma trimEnd_idem s : trimEnd (trimEnd s) = trimEnd s.
Proof.
  induction s as [|c s IH]; simpl; [reflexivity|].
  destruct (trimEnd s) as [|d r] eqn:E.
  - destruct (isWhiteSpace c) eqn:W; simpl; [reflexivity|].
    by rewrite W.
  - simpl. simpl in IH. destruct (trimEnd r) as [|e r'] eqn:E'.
    + destruct (isWhiteSpace d) eqn:W; [discriminate|].
      inversion IH; subst. reflexivity.
    + by rewrite IH.
Qed.

Lemma trimStart_trimEnd_head s c r :
  trimEnd (trimStart s) = String c r -> isWhiteSpace c = false.
Proof.
  induction s as [|a s IH]; simpl; [discriminate|].
  destruct (isWhiteSpace a) eqn:W; [exact IH|].
  simpl. destruct (trimEnd s); [rewrite W|]; intros [= <- _]; exact W.
Qed.

(** Trimming twice is trimming once. *)
Lemma trim_idem s : trim (trim s) = trim s.
Proof.
  unfold trim. destruct (trimEnd (trimStart s)) as [|c r] eqn:E; [reflexivity|].
  assert (W := trimStart_trimEnd_head _ _ _ E).
  replace (trimStart (String c r)) with (String c r) by (simpl; by rewrite W).
  rewrite <- E. apply trimEnd_idem.
Qed.

Lemma trimStart_length s : Js.length (trimStart s) <= Js.length s.
Proof.
  unfold Js.length. induction s as [|c s IH]; simpl; [lia|].
  destruct (isWhiteSpace c); simpl; lia.
Qed.

Lemma trimEnd_length s : Js.length (trimEnd s) <= Js.length s.
Proof.
  unfold Js.length. induction s as [|c s IH]; simpl; [lia|].
  destruct (trimEnd s); [destruct (isWhiteSpace c)|]; simpl in *; lia.
Qed.

Lemma trim_length s : Js.length (trim s) <= Js.length s.
Proof.
  unfold trim. pose proof (trimEnd_length (trimStart s)).
  pose proof (trimStart_length s). lia.
Qed.

Lemma sliceTo_length n s :
  Js.length (sliceTo n s) = Z.min (Z.of_nat n) (Js.length s).
Proof.
  unfold Js.length. revert s. induction n as [|n IH]; intros [|c s]; simpl;
    try lia.
  specialize (IH s). lia.
Qed.

Lemma sliceTo_all n s : (String.length s <= n)%nat -> sliceTo n s = s.
Proof.
  revert s. induction n as [|n IH]; intros [|c s] H; simpl in *;
    try done; try lia.
  f_equal. apply IH. lia.
Qed.

Lemma sliceTo_prefix n s : String.prefix (sliceTo n s) s = true.
Proof.
  revert s. induction n as [|n IH]; intros [|c s]; simpl; try done.
  destruct (ascii_dec c c); [apply IH|done].
Qed.

End JsFacts.

(** ** Attachment uploader *)

Module FileUploadSpec.

Import FileUpload.

Lemma includes_elem (arr : list string) x :
  Js.includes arr x = true <-> x ∈ arr.
Proof.
  unfold Js.includes. rewrite existsb_exists. split.
  - intros (y & Hy & E). apply String.eqb_eq in E. subst.
    by apply list_elem_of_In.
  - intros H. exists x. split; [by apply list_elem_of_In | apply String.eqb_refl].
Qed.

Lemma validate_head f rest :
  validate (f :: rest) =
    if Js.includes ALLOWED_EXTENSIONS (getExtension (fname f))
       && (fsize f <=? 10485760)
    then validate rest else Some (rejection f).
Proof.
  unfold rejection. cbn [validate].
  destruct (Js.includes ALLOWED_EXTENSIONS (getExtension (fname f)));
    cbn [negb andb]; [|reflexivity].
  unfold MAX_FILE_SIZE.
  destruct (Z.gtb_spec (fsize f) (10 * 1024 * 1024)),
           (Z.leb_spec (fsize f) 10485760); try lia; reflexivity.
Qed.

Lemma valid_check f :
  Js.includes ALLOWED_EXTENSIONS (getExtension (fname f))
    && (fsize f <=? 10485760) = true <-> valid f.
Proof.
  unfold valid. rewrite andb_true_iff, includes_elem, Z.leb_le. tauto.
Qed.

Lemma validate_pass batch : Forall valid batch -> validate batch = None.
Proof.
  induction 1 as [|f rest Hf _ IH]; [reflexivity|].
  rewrite validate_head. apply valid_check in Hf. by rewrite Hf.
Qed.

Lemma validate_first_invalid pre f post :
  Forall valid pre -> ~ valid f ->
  validate (pre ++ f :: post) = Some (rejection f).
Proof.
  intros Hpre Hf. induction Hpre as [|g rest Hg _ IH]; simpl app;
    rewrite validate_head.
  - destruct (_ && _) eqn:E; [|reflexivity].
    apply valid_check in E. contradiction.
  - apply valid_check in Hg. by rewrite Hg.
Qed.

Lemma validate_none_all batch : validate batch = None -> Forall valid batch.
Proof.
  induction batch as [|f rest IH]; [constructor|].
  rewrite validate_head. destruct (_ && _) eqn:E; [|discriminate].
  intros H. constructor; [by apply valid_check | by apply IH].
Qed.

Lemma getExtension_no_dot name :
  Js.occurs "." name = false -> getExtension name = "".
Proof.
  intros H. unfold getExtension, Js.lastIndexOf.
  by rewrite JsFacts.lastIndexOfFrom_absent.
Qed.

Lemma getExtension_last_dot pre suf :
  Js.occurs "." suf = false ->
  getExtension (pre +:+ String "." suf) = String "." (Js.toLowerCase suf).
Proof.
  intros H. unfold getExtension, Js.lastIndexOf.
  rewrite JsFacts.lastIndexOfFrom_last by (lia || assumption).
  unfold Js.length. rewrite Z.add_0_l.
  destruct (Z.leb_spec 0 (Z.of_nat (String.length pre))); [|lia].
  rewrite Nat2Z.id, JsFacts.sliceFrom_app. reflexivity.
Qed.

Lemma validate_member_invalid f batch :
  f ∈ batch -> ~ valid f -> is_Some (validate batch).
Proof.
  intros Hin Hf. destruct (validate batch) eqn:E; [eauto|].
  apply validate_none_all in E. rewrite Forall_forall in E.
  destruct Hf. by apply E.
Qed.

Lemma start_full attachments files u :
  (3 <= length attachments)%nat ->
  uploadFiles_start attachments files u =
    (mkUploader (pending u) (Some "Maximum 3 files allowed"), None).
Proof.
  intros H. unfold uploadFiles_start, MAX_FILES.
  destruct (Z.leb_spec (3 - Z.of_nat (length attachments)) 0); [reflexivity|lia].
Qed.

Lemma start_room attachments files u :
  (length attachments < 3)%nat ->
  uploadFiles_start attachments files u =
    let batch := take (3 - length attachments)%nat files in
    match validate batch with
    | Some msg => (mkUploader (pending u) (Some msg), None)
    | None =>
        (mkUploader
           (pending u ++ map (fun f => mkPending f uploading None None) batch)
           None,
         Some batch)
    end.
Proof.
  intros H. unfold uploadFiles_start, MAX_FILES.
  destruct (Z.leb_spec (3 - Z.of_nat (length attachments)) 0); [lia|].
  replace (Z.to_nat (3 - Z.of_nat (length attachments)))
    with (3 - length attachments)%nat by lia.
  cbn zeta. by destruct (validate _).
Qed.

(** C5: with three or more attachments already present an error is
    set and nothing is uploaded; otherwise the batch is cut to the
    free slots, uploads start only when every file of the cut batch
    has an allowed extension and at most 10 MiB, and the first file
    that breaks the rule stops the whole batch with its error and no
    upload. *)
Theorem uploadFiles_checks_before_upload
    (attachments : list AttachmentMeta) (files : list File) (u : Uploader) :
  let r := uploadFiles_start attachments files u in
  let batch := take (3 - length attachments)%nat files in
  ((3 <= length attachments)%nat ->
     snd r = None /\ issued r = [] /\
     uerror (fst r) = Some "Maximum 3 files allowed" /\
     pending (fst r) = pending u)
  /\ ((length attachments < 3)%nat -> Forall valid batch ->
     snd r = Some batch /\ issued r = batch /\ uerror (fst r) = None /\
     pending (fst r) =
       pending u ++ map (fun f => mkPending f uploading None None) batch)
  /\ ((length attachments < 3)%nat -> forall pre f post,
     batch = pre ++ f :: post -> Forall valid pre -> ~ valid f ->
     snd r = None /\ issued r = [] /\
     uerror (fst r) = Some (rejection f) /\ pending (fst r) = pending u)
  /\ (forall b, snd r = Some b ->
     (length attachments < 3)%nat /\ b = batch /\ Forall valid batch).
Proof.
  intros r batch. subst r. split; [|split; [|split]].
  - intros Hfull. by rewrite start_full.
  - intros Hroom Hall. rewrite start_room by assumption. cbn zeta.
    fold batch. by rewrite validate_pass.
  - intros Hroom pre f post Hb Hpre Hf. rewrite start_room by assumption.
    cbn zeta. fold batch. rewrite Hb.
    by rewrite validate_first_invalid.
  - intros b H.
    destruct (Nat.le_gt_cases 3 (length attachments)) as [Hfull|Hroom];
      [rewrite start_full in H by assumption; discriminate|].
    rewrite start_room in H by assumption. cbn zeta in H. fold batch in H.
    destruct (validate batch) eqn:E; [discriminate|].
    injection H as <-. auto using validate_none_all.
Qed.

(** A batch of four files offered with one attachment in place: the
    first two are considered, both pass, both are uploaded. *)
Lemma uploadFiles_checks_before_upload_witness :
  let a := mkMeta "a1" "old.pdf" "s1" "application/pdf" 10 "local" "/u/s1" in
  let fs := [mkFile 0 "shot.png" 2048; mkFile 1 "trace.LOG" 10485760;
             mkFile 2 "tool.exe" 1; mkFile 3 "x.csv" 1] in
  issued (uploadFiles_start [a] fs (mkUploader [] None)) = take 2 fs.
Proof.
  intros a fs.
  destruct (uploadFiles_checks_before_upload [a] fs (mkUploader [] None))
    as (_ & Hok & _).
  apply Hok.
  - simpl. lia.
  - repeat constructor; try (by apply includes_elem); by vm_compute.
Defined.

(** C10: the extension is what follows the last dot of the name, in
    lower case, so the check ignores case and 'photo.PNG' passes it; a
    name without a dot has the empty extension, and a batch holding
    such a file is refused. *)
Theorem getExtension_ignores_case (pre suf : string) (f : File)
    (batch : list File) :
  Js.occurs "." suf = false ->
  Js.occurs "." (fname f) = false ->
  f ∈ batch ->
  getExtension (pre +:+ String "." suf) = String "." (Js.toLowerCase suf)
  /\ getExtension "photo.PNG" = ".png"
  /\ Js.includes ALLOWED_EXTENSIONS (getExtension "photo.PNG") = true
  /\ getExtension (fname f) = ""
  /\ Js.includes ALLOWED_EXTENSIONS (getExtension (fname f)) = false
  /\ is_Some (validate batch).
Proof.
  intros Hsuf Hname Hin.
  assert (E : getExtension (fname f) = "") by by apply getExtension_no_dot.
  repeat split; try reflexivity.
  - by apply getExtension_last_dot.
  - exact E.
  - by rewrite E.
  - apply (validate_member_invalid f); [assumption|].
    intros [H _]. rewrite E in H. apply includes_elem in H. discriminate H.
Qed.

Lemma getExtension_ignores_case_witness :
  getExtension "archive.tar.JPeG" = ".jpeg"
  /\ is_Some (validate [mkFile 0 "a.txt" 5; mkFile 1 "Makefile" 5]).
Proof.
  pose proof (getExtension_ignores_case "archive.tar" "JPeG"
                (mkFile 1 "Makefile" 5)
                [mkFile 0 "a.txt" 5; mkFile 1 "Makefile" 5]) as H.
  destruct H as (H1 & _ & _ & _ & _ & H6).
  - reflexivity.
  - reflexivity.
  - set_solver.
  - split; [exact H1 | exact H6].
Defined.

(** *** Settlement of the fan-out *)

Lemma resolveAll_snoc outcomes order i cw :
  resolveAll outcomes (order ++ [i]) cw =
    match outcomes !! i with
    | Some o => resolve i o (resolveAll outcomes order cw)
    | None => resolveAll outcomes order cw
    end.
Proof. unfold resolveAll. by rewrite foldl_app. Qed.

(** Resolutions touch neither the batch, nor what the closure
    captured, nor the owner's list, nor the number of slots. *)
Lemma resolveAll_frame outcomes order c w :
  let cw' := resolveAll outcomes order (c, w) in
  captured (fst cw') = captured c /\ batch (fst cw') = batch c
  /\ length (results (fst cw')) = length (results c)
  /\ attachments (snd cw') = attachments w.
Proof.
  induction order as [|i order IH] using rev_ind; [done|].
  cbn zeta in *. rewrite resolveAll_snoc.
  destruct (outcomes !! i) as [o|]; [|exact IH].
  destruct (resolveAll outcomes order (c, w)) as [c1 w1]. simpl in *.
  destruct IH as (H1 & H2 & H3 & H4).
  destruct (batch c1 !! i); simpl; [|done].
  by rewrite length_insert.
Qed.

Lemma resolveAll_untouched outcomes order c w i :
  i ∉ order ->
  results (fst (resolveAll outcomes order (c, w))) !! i = results c !! i.
Proof.
  induction order as [|j order IH] using rev_ind; [done|].
  intros Hi. rewrite resolveAll_snoc.
  apply not_elem_of_app in Hi as [Hi Hj].
  apply not_elem_of_cons in Hj as [Hj _].
  destruct (outcomes !! j) as [o|]; [|by apply IH].
  destruct (resolveAll outcomes order (c, w)) as [c1 w1]. simpl in *.
  destruct (batch c1 !! j); simpl; [|by apply IH].
  rewrite list_lookup_insert_ne by done. by apply IH.
Qed.

Lemma resolveAll_filled outcomes order c w i f o :
  i ∈ order -> batch c !! i = Some f -> outcomes !! i = Some o ->
  (i < length (results c))%nat ->
  results (fst (resolveAll outcomes order (c, w))) !! i = Some (Some o).
Proof.
  intros Hin Hf Ho Hlen.
  induction order as [|j order IH] using rev_ind; [by apply elem_of_nil in Hin|].
  rewrite resolveAll_snoc.
  pose proof (resolveAll_frame outcomes order c w) as (_ & Hb & Hl & _).
  destruct (decide (j = i)) as [->|Hne].
  - rewrite Ho.
    destruct (resolveAll outcomes order (c, w)) as [c1 w1]. simpl in *.
    rewrite Hb, Hf. simpl. apply list_lookup_insert_eq. lia.
  - assert (Hin' : i ∈ order).
    { apply elem_of_app in Hin as [|Hin]; [done|].
      apply list_elem_of_singleton in Hin. congruence. }
    specialize (IH Hin').
    destruct (outcomes !! j) as [oj|]; [|exact IH].
    destruct (resolveAll outcomes order (c, w)) as [c1 w1]. simpl in *.
    destruct (batch c1 !! j); simpl; [|exact IH].
    by rewrite list_lookup_insert_ne.
Qed.

Lemma allSettled_all outcomes : allSettled (map Some outcomes) = Some outcomes.
Proof. induction outcomes as [|o os IH]; simpl; [done|]. by rewrite IH. Qed.

(** Once every upload has ended, in whatever order, the slots hold
    the outcomes in the order of the batch. *)
Lemma resolveAll_complete outcomes order b atts w :
  length outcomes = length b ->
  order ≡ₚ seq 0 (length b) ->
  results (fst (resolveAll outcomes order (suspend atts b, w)))
    = map Some outcomes.
Proof.
  intros Hlen Hperm. apply list_eq. intros i.
  destruct (decide (i < length b)%nat) as [Hi|Hi].
  - destruct (lookup_lt_is_Some_2 b i Hi) as [f Hf].
    destruct (lookup_lt_is_Some_2 outcomes i) as [o Ho]; [lia|].
    rewrite (resolveAll_filled outcomes order _ w i f o); try done.
    + by rewrite list_lookup_fmap, Ho.
    + rewrite Hperm. apply elem_of_seq. lia.
    + simpl. by rewrite length_replicate.
  - rewrite resolveAll_untouched.
    + simpl. transitivity (@None (option Outcome)).
      * apply lookup_replicate_None. lia.
      * symmetry. apply lookup_ge_None. rewrite length_map. lia.
    + rewrite Hperm, elem_of_seq. lia.
Qed.

(** C6: for a batch that passed the checks, once its uploads have all
    ended, in any order, the owner's list is the previous list followed
    by the metadata of the uploads that succeeded, one entry per
    success, in the order of the batch; failures add nothing and take
    nothing away. *)
Theorem uploadFiles_appends_successes
    (files b : list File) (u : Uploader) (outcomes : list Outcome)
    (order : list nat) (w : World) :
  uploadFiles_start (attachments w) files (uploader w) = (u, Some b) ->
  length outcomes = length b ->
  order ≡ₚ seq 0 (length b) ->
  exists w',
    uploadFiles files outcomes order w = Some w'
    /\ attachments w' = attachments w ++ omap fulfilled outcomes.
Proof.
  intros Hstart Hlen Hperm. unfold uploadFiles. rewrite Hstart.
  pose proof (resolveAll_complete outcomes order b (attachments w)
                (mkWorld u (attachments w)) Hlen Hperm) as Hres.
  pose proof (resolveAll_frame outcomes order (suspend (attachments w) b)
                (mkWorld u (attachments w))) as (Hc & _ & _ & Ha).
  destruct (resolveAll _ _ _) as [c1 w1]. simpl in *.
  rewrite Hres, allSettled_all.
  destruct (omap fulfilled outcomes) as [|m ms] eqn:E; simpl.
  - eexists. split; [reflexivity|]. by rewrite Ha, app_nil_r.
  - eexists. split; [reflexivity|]. simpl. by rewrite Hc.
Qed.

(** Two files, the second upload fails, and it ends before the
    first one does. *)
Lemma uploadFiles_appends_successes_witness :
  let a := mkMeta "a0" "old.txt" "s0" "text/plain" 3 "local" "/u/s0" in
  let m1 := mkMeta "a1" "one.png" "s1" "image/png" 10 "local" "/u/s1" in
  let fs := [mkFile 1 "one.png" 10; mkFile 2 "two.pdf" 20] in
  exists w',
    uploadFiles fs [Fulfilled m1; Rejected (Some "413")] [1; 0]%nat
                (mkWorld (mkUploader [] None) [a]) = Some w'
    /\ attachments w' = [a; m1].
Proof.
  intros a m1 fs.
  apply (uploadFiles_appends_successes fs fs
           (mkUploader (map (fun f => mkPending f uploading None None) fs) None)).
  - reflexivity.
  - reflexivity.
  - simpl. apply perm_swap.
Defined.

End FileUploadSpec.

(** ** Feedback page *)

Module FeedbackSpec.

Import Feedback.

(** Unfolds the plumbing of [M], leaving state and log in the open. *)
Ltac run :=
  cbv [exec trace value mbind M_bind mret M_ret
       get request update timeout setClock];
  cbn [fst snd app].

(** *** Pagination *)

Lemma Qceiling_div12 (n : Z) :
  Qceiling (inject_Z n / inject_Z PAGE_SIZE) = - ((- n) / 12).
Proof.
  unfold Qceiling, Qfloor, Qdiv, Qmult, Qinv, Qopp, inject_Z, PAGE_SIZE.
  simpl Qnum. simpl Qden. rewrite Z.mul_1_r. reflexivity.
Qed.

Lemma totalPages_ceiling (n : Z) :
  exists c, 12 * (c - 1) < n <= 12 * c /\ totalPages n = Z.max 1 c.
Proof.
  exists (- ((- n) / 12)). split.
  - pose proof (Z.div_mod (- n) 12 ltac:(lia)).
    pose proof (Z.mod_pos_bound (- n) 12 ltac:(lia)). lia.
  - unfold totalPages. by rewrite Qceiling_div12.
Qed.

(** C9: for a total of at least zero the page count is the ceiling of
    total/12, and at least 1; Previous is disabled exactly on page 0
    and Next exactly from page [totalPages - 1] on; 30 items make 3
    pages, with Next disabled on page 2 and Previous on page 0. *)
Theorem pagination_controls (p : Page) :
  let total := listTotal (data p) in
  let pg := page (filters p) in
  0 <= total ->
  (exists c, 12 * (c - 1) < total <= 12 * c /\ totalPages total = Z.max 1 c)
  /\ (previousDisabled p = true <-> pg = 0)
  /\ (nextDisabled p = true <-> pg >= totalPages total - 1)
  /\ (total = 30 ->
      totalPages total = 3
      /\ (pg = 2 -> nextDisabled p = true)
      /\ (pg = 0 -> previousDisabled p = true)).
Proof.
  intros total pg _. split; [apply totalPages_ceiling|].
  unfold previousDisabled, nextDisabled. fold total pg.
  split; [apply Z.eqb_eq|]. split; [rewrite Z.geb_le; lia|].
  intros ->. split; [reflexivity|]. split; intros ->; reflexivity.
Qed.

Lemma pagination_controls_witness :
  let p := exec (setPage (fun _ => 2);;
                 fetchList (Ok (mkListResponse [] 30))) (mounted None) in
  totalPages (listTotal (data p)) = 3 /\ nextDisabled p = true
  /\ previousDisabled p = false.
Proof.
  intros p.
  destruct (pagination_controls p) as (_ & _ & _ & H); [by vm_compute|].
  destruct (H eq_refl) as (H3 & Hn & _).
  split; [exact H3|]. split; [by apply Hn | reflexivity].
Defined.

(** *** Filter controls *)

(** C1: the type, status and priority controls set page 0 in the
    update that changes the filter; the sort control changes the sort
    mode and leaves the page index as it is, so from page 2 a change
    of sort mode stays on page 2. *)
Theorem sort_change_keeps_page :
  (forall p v, page (filters (exec (onTypeChange v) p)) = 0)
  /\ (forall p v, page (filters (exec (onStatusChange v) p)) = 0)
  /\ (forall p v, page (filters (exec (onPriorityChange v) p)) = 0)
  /\ (forall p t s o, page (filters (exec (onHintAction t s o) p)) = 0)
  /\ (forall p v,
        page (filters (exec (onSortChange v) p)) = page (filters p)
        /\ sortBy (filters (exec (onSortChange v) p)) = v
        /\ trace (onSortChange v) p = [Update v_sortBy])
  /\ (let p := exec (setPage (fun _ => 2)) (mounted None) in
      page (filters (exec (onSortChange popular) p)) = 2).
Proof.
  repeat split.
  intros p [t|] [s|] [o|]; reflexivity.
Qed.

(** *** Upvotes *)

Lemma toggleItem_same feedbackId item :
  id item = feedbackId ->
  let item' := toggleItem feedbackId item in
  user_has_upvoted item' = negb (user_has_upvoted item)
  /\ upvotes item' =
       (if user_has_upvoted item then Z.max 0 (upvotes item - 1)
        else upvotes item + 1).
Proof.
  intros <-. unfold toggleItem. rewrite String.eqb_refl. simpl.
  by destruct (user_has_upvoted item).
Qed.

Lemma toggleItem_other feedbackId item :
  id item <> feedbackId -> toggleItem feedbackId item = item.
Proof.
  intros H. unfold toggleItem.
  destruct (String.eqb_spec (id item) feedbackId); [contradiction|reflexivity].
Qed.

(** C4: with a signed-in user the handler, before it suspends on the
    request, flips the flag of the item and moves its count by +1, or
    by -1 but not below 0; other items stay as they are; the toggle
    request is the only one sent, after the update.  An item with flag
    false and 5 upvotes becomes true and 6.  Without a user the list,
    the filters and the discussion state are unchanged and no request
    is sent; the only effect is the toast that asks to sign in. *)
Theorem handleUpvote_optimistic (p : Page) (feedbackId : string) :
  let m := handleUpvote_begin feedbackId in
  (forall u, user p = Some u ->
     length (items (data (exec m p))) = length (items (data p))
     /\ (forall i item, items (data p) !! i = Some item ->
           exists item', items (data (exec m p)) !! i = Some item'
             /\ (id item <> feedbackId -> item' = item)
             /\ (id item = feedbackId ->
                   id item' = id item
                   /\ user_has_upvoted item' = negb (user_has_upvoted item)
                   /\ upvotes item' =
                        (if user_has_upvoted item
                         then Z.max 0 (upvotes item - 1)
                         else upvotes item + 1)
                   /\ (user_has_upvoted item = false -> upvotes item = 5 ->
                         user_has_upvoted item' = true /\ upvotes item' = 6)))
     /\ trace m p = [Update v_items; Update v_upvoteLoadingId;
                     Request (toggleFeedbackUpvote feedbackId)])
  /\ (user p = None ->
     data (exec m p) = data p
     /\ filters (exec m p) = filters p
     /\ discussion (exec m p) = discussion p
     /\ clock (exec m p) = clock p
     /\ toasts (notify (exec m p)) =
          toasts (notify p)
          ++ [mkToast (toastId (notify p) + 1)
                      "Sign in to upvote feedback." error]
     /\ requests (trace m p) = []
     /\ value m p = false).
Proof.
  intros m. subst m. unfold handleUpvote_begin. split.
  - intros u Hu. run. rewrite Hu. run. cbn. split; [by rewrite length_map|].
    split; [|reflexivity].
    intros i item Hi. exists (toggleItem feedbackId item).
    split; [by rewrite list_lookup_fmap, Hi|].
    split; [apply toggleItem_other|].
    intros Hid. destruct (toggleItem_same feedbackId item Hid) as [Hf Hc].
    split; [|split; [exact Hf|split; [exact Hc|]]].
    + unfold toggleItem. by destruct (negb (String.eqb _ _)).
    + intros Hfalse H5. rewrite Hf, Hc, Hfalse, H5. done.
  - intros Hu. run. rewrite Hu. by vm_compute.
Qed.

Lemma handleUpvote_optimistic_witness :
  let it := mkItem "f1" bug_report "Crash" "It crashes" open None 5 false 0 in
  let p := exec (fetchList (Ok (mkListResponse [it] 1)))
                (mounted (Some (mkUser "Ada" "ada@example.org"))) in
  exists item',
    items (data (exec (handleUpvote_begin "f1") p)) !! 0%nat = Some item'
    /\ user_has_upvoted item' = true /\ upvotes item' = 6.
Proof.
  intros it p.
  destruct (handleUpvote_optimistic p "f1") as [H _].
  destruct (H _ eq_refl) as (_ & Hitems & _).
  destruct (Hitems 0%nat it eq_refl) as (item' & Hl & _ & Hsame).
  exists item'. split; [exact Hl|].
  destruct (Hsame eq_refl) as (_ & _ & _ & H5). by apply H5.
Defined.

(** *** Debounced search *)

Lemma exec_bind {A B} (m : M A) (k : A -> M B) p :
  exec (m ≫= k) p = exec (k (value m p)) (exec m p).
Proof.
  unfold exec, value, mbind, M_bind.
  destruct (m p) as [[a p1] l1]. simpl. by destruct (k a p1) as [[b p2] l2].
Qed.

Lemma final_cons prev gap s ks : final prev ((gap, s) :: ks) = final s ks.
Proof.
  unfold final. simpl map. generalize (map snd ks). intros l. revert s prev.
  induction l as [|a l IH]; intros s prev; [reflexivity|].
  change (List.last (s :: a :: l) prev) with (List.last (a :: l) prev).
  by rewrite (IH a prev), (IH a s).
Qed.

Lemma onSearchInput_changed p s :
  s <> searchInput (filters p) ->
  let q := exec (onSearchInput s) p in
  armed q s
  /\ searchValue (filters q) = searchValue (filters p)
  /\ page (filters q) = page (filters p).
Proof.
  intros H. unfold onSearchInput, armDebounce, setSearchInput. run.
  destruct (String.eqb_spec s (searchInput (filters p))); [contradiction|].
  run. by cbn.
Qed.

Lemma elapse_early q s dt :
  armed q s -> dt < 400 ->
  filters (exec (elapse dt) q) = filters q.
Proof.
  intros [_ Hd] Hdt. unfold elapse. run. rewrite Hd.
  destruct (Z.leb_spec (now (clock q) + 400) (now (clock q) + dt)); [lia|].
  by run.
Qed.

Lemma elapse_settled q s dt :
  armed q s -> 400 <= dt ->
  let r := exec (elapse dt) q in
  searchValue (filters r) = Js.trim s /\ page (filters r) = 0
  /\ searchInput (filters r) = s /\ debounce (clock r) = None.
Proof.
  intros [Hs Hd] Hdt. unfold elapse, commitSearch, setSearchValue, setPage.
  run. rewrite Hd.
  destruct (Z.leb_spec (now (clock q) + 400) (now (clock q) + dt)); [|lia].
  run. by cbn.
Qed.

Lemma keystroke_armed q s gap s' :
  armed q s -> 0 <= gap -> s' <> s ->
  let q' := exec (elapse gap ≫= fun _ => onSearchInput s') q in
  armed q' s'
  /\ (gap < 400 -> searchValue (filters q') = searchValue (filters q)
                   /\ page (filters q') = page (filters q)).
Proof.
  intros Ha Hg Hne q'. subst q'. rewrite exec_bind.
  set (q1 := exec (elapse gap) q).
  assert (Hin : searchInput (filters q1) = s).
  { destruct (Z.lt_ge_cases gap 400) as [Hlt|Hge].
    - subst q1. rewrite (elapse_early q s) by done. apply Ha.
    - by destruct (elapse_settled q s gap Ha Hge) as (_ & _ & ? & _). }
  destruct (onSearchInput_changed q1 s') as (Harm & Hv & Hp); [congruence|].
  split; [exact Harm|]. intros Hlt. rewrite Hv, Hp.
  subst q1. by rewrite (elapse_early q s).
Qed.

Lemma typing_armed ks : forall q s,
  armed q s -> effective s ks ->
  let q' := exec (typing ks) q in
  armed q' (final s ks)
  /\ (Forall (fun k => fst k < 400) ks ->
      searchValue (filters q') = searchValue (filters q)
      /\ page (filters q') = page (filters q)).
Proof.
  induction ks as [|[gap s'] ks IH]; intros q s Ha He.
  - by split.
  - destruct He as (Hg & Hne & He). cbn [typing].
    cbn zeta. rewrite exec_bind.
    set (m := onSearchInput s' ≫= fun _ => typing ks).
    set (q1 := exec (elapse gap) q). subst m. rewrite exec_bind.
    destruct (keystroke_armed q s gap s' Ha Hg Hne) as [Ha' Hsame].
    rewrite exec_bind in Ha', Hsame. fold q1 in Ha', Hsame.
    destruct (IH _ _ Ha' He) as [Hfin Hburst].
    split.
    + by rewrite final_cons.
    + intros Hall. apply Forall_cons in Hall as [Hlt Hall].
      destruct (Hburst Hall) as [-> ->]. by apply Hsame.
Qed.

(** C2, as the code has it: after keystrokes that each change the
    box, the committed value and the page do not change for less than
    400 ms of silence, nor during keystrokes that follow one another
    within 400 ms; after 400 ms of silence the committed value is the
    final content of the box with surrounding white space removed and
    the page index is 0. *)
Theorem search_commit_debounced
    (p : Page) (s0 : string) (ks : list (Z * string)) (dt : Z) :
  s0 <> searchInput (filters p) ->
  effective s0 ks ->
  let q := exec (onSearchInput s0 ≫= fun _ => typing ks) p in
  let r := exec (elapse dt) q in
  searchInput (filters q) = final s0 ks
  /\ (Forall (fun k => fst k < 400) ks ->
      searchValue (filters q) = searchValue (filters p)
      /\ page (filters q) = page (filters p))
  /\ (dt < 400 ->
      searchValue (filters r) = searchValue (filters q)
      /\ page (filters r) = page (filters q))
  /\ (400 <= dt ->
      searchValue (filters r) = Js.trim (final s0 ks)
      /\ page (filters r) = 0).
Proof.
  intros Hne He q r. subst r q. rewrite exec_bind.
  destruct (onSearchInput_changed p s0 Hne) as (Ha0 & Hv0 & Hp0).
  destruct (typing_armed ks _ _ Ha0 He) as [Ha Hburst].
  split; [apply Ha|]. split; [|split].
  - intros Hall. destruct (Hburst Hall) as [-> ->]. done.
  - intros Hlt. by rewrite (elapse_early _ _ _ Ha Hlt).
  - intros Hge. by destruct (elapse_settled _ _ _ Ha Hge) as (? & ? & _).
Qed.

(** "abc" typed at intervals of 100 ms on the freshly mounted page. *)
Lemma search_commit_debounced_witness :
  let q := exec (typing [(0, "a"); (100, "ab"); (100, "abc")]) (mounted None) in
  searchValue (filters (exec (elapse 399) q)) = ""
  /\ searchValue (filters (exec (elapse 400) q)) = "abc"
  /\ page (filters (exec (elapse 400) q)) = 0.
Proof.
  intros q.
  pose proof (search_commit_debounced (mounted None) "a"
                [(100, "ab"); (100, "abc")]) as H.
  split; [|split].
  - destruct (H 399) as (_ & _ & Hlt & _); [done | by vm_compute |].
    apply Hlt. lia.
  - destruct (H 400) as (_ & _ & _ & Hge); [done | by vm_compute |].
    apply Hge. lia.
  - destruct (H 400) as (_ & _ & _ & Hge); [done | by vm_compute |].
    apply Hge. lia.
Defined.

(** C2 as stated fails: with a trailing blank typed, the committed
    value is not the content of the box. *)
Lemma search_commit_not_verbatim :
  let r := exec (typing [(0, "a"); (100, "ab"); (100, "abc"); (100, "abc ")]
                 ≫= fun _ => elapse 400) (mounted None) in
  searchInput (filters r) = "abc "
  /\ searchValue (filters r) = "abc"
  /\ searchValue (filters r) <> searchInput (filters r).
Proof. by vm_compute. Qed.

(** *** Comments *)

Ltac absent :=
  let H := fresh in
  intros H;
  repeat (apply elem_of_cons in H as [H|H]; [discriminate|]);
  by apply elem_of_nil in H.

(** C3, as the code has it: when the send and the re-fetch succeed,
    the handler sends the comment, re-fetches the comments of the item
    and replaces its cache entry, clears the draft of the item, and
    only then starts the list refetch; when the send or the re-fetch
    fails, nothing after it happens and the draft stays; with an empty
    trimmed draft nothing happens at all. *)
Theorem handleSubmitComment_order (p : Page) (feedbackId : string) :
  let text :=
    Js.trim (default "" (commentDrafts (discussion p) !! feedbackId)) in
  let send := Request (addFeedbackComment feedbackId text (userName p)) in
  let refetch := Request (getFeedbackComments feedbackId) in
  let list := Request (listFeedback (queryOf p)) in
  (text = "" -> forall added fetched listed,
     let m := handleSubmitComment feedbackId added fetched listed in
     trace m p = [] /\ exec m p = p)
  /\ (text <> "" -> forall its listed,
     let m := handleSubmitComment feedbackId (Ok tt) (Ok its) listed in
     (exists rest,
        trace m p =
          [Update v_commentLoadingId; send; refetch; Update v_commentsById;
           Update v_commentDrafts; Update v_isLoading; list] ++ rest
        /\ quiet rest)
     /\ commentsById (discussion (exec m p)) !! feedbackId = Some its
     /\ commentDrafts (discussion (exec m p)) !! feedbackId = Some "")
  /\ (text <> "" -> forall msg fetched listed,
     let m := handleSubmitComment feedbackId (Err msg) fetched listed in
     requests (trace m p) = [addFeedbackComment feedbackId text (userName p)]
     /\ commentsById (discussion (exec m p)) = commentsById (discussion p)
     /\ commentDrafts (discussion (exec m p)) = commentDrafts (discussion p))
  /\ (text <> "" -> forall msg listed,
     let m := handleSubmitComment feedbackId (Ok tt) (Err msg) listed in
     requests (trace m p) = [addFeedbackComment feedbackId text (userName p);
                             getFeedbackComments feedbackId]
     /\ commentsById (discussion (exec m p)) = commentsById (discussion p)
     /\ commentDrafts (discussion (exec m p)) = commentDrafts (discussion p)).
Proof.
  intros text send refetch list. subst send refetch list.
  unfold handleSubmitComment. fold text.
  unfold fetchList, fetchList_begin, fetchList_end, pushToast, nextToastId,
    setCommentLoadingId, setCommentsById, setCommentDrafts, setIsLoading,
    setItems, setListTotal, setToasts.
  destruct text as [|c t] eqn:E; (split; [|split; [|split]]); try done.
  - intros _ added fetched listed. run. fold text. rewrite E. by run.
  - intros _ its listed. run. fold text. rewrite E. cbn [Js.truthy negb].
    destruct listed as [resp|msg]; run; cbn.
    all: split; [|split; apply lookup_insert_eq
                   || (rewrite lookup_insert_ne; [apply lookup_insert_eq|])].
    all: eexists; (split; [reflexivity|]); split; [done|]; split; absent.
  - intros _ msg fetched listed. run. fold text. rewrite E. by run.
  - intros _ msg listed. run. fold text. rewrite E. by run.
Qed.

Lemma handleSubmitComment_order_witness :
  let c := mkComment "c1" "Same here" (Some "Ada") false in
  let p := exec (onCommentDraftChange "f1" "  Same here ")
                (mounted (Some (mkUser "Ada" "ada@example.org"))) in
  let m := handleSubmitComment "f1" (Ok tt) (Ok [c])
             (Err "503 Service Unavailable") in
  commentsById (discussion (exec m p)) !! "f1" = Some [c]
  /\ commentDrafts (discussion (exec m p)) !! "f1" = Some "".
Proof.
  intros c p m.
  destruct (handleSubmitComment_order p "f1") as (_ & H & _).
  destruct (H ltac:(by vm_compute) [c] (Err "503 Service Unavailable"))
    as (_ & H1 & H2).
  split; [exact H1 | exact H2].
Defined.

(** C3 as stated fails: in a submission that goes through, the draft
    is cleared before the list refetch is started, not after it. *)
Lemma handleSubmitComment_clears_draft_first :
  let c := mkComment "c1" "Same here" None false in
  let p := exec (onCommentDraftChange "f1" "Same here") (mounted None) in
  let m := handleSubmitComment "f1" (Ok tt) (Ok [c])
             (Ok (mkListResponse [] 0)) in
  let list := Request (listFeedback (queryOf p)) in
  let clear := Update v_commentDrafts in
  precedes list clear (trace m p) = false
  /\ precedes clear list (trace m p) = true.
Proof. by vm_compute. Qed.

End FeedbackSpec.

(** ** Submission form *)

Module SubmitFeedbackModalSpec.

Import Feedback SubmitFeedbackModal.

Lemma length_zero s : (Js.length s =? 0) = true <-> s = "".
Proof.
  unfold Js.length. rewrite Z.eqb_eq. destruct s; simpl; [tauto|].
  split; [lia|discriminate].
Qed.

Lemma modelInfoRequired_iff f :
  modelInfoRequired f = true <->
  formType f = model_request
  /\ Js.trim (modelName f) = "" /\ Js.trim (modelProvider f) = "".
Proof.
  unfold modelInfoRequired.
  rewrite !andb_true_iff, bool_decide_eq_true, !length_zero. tauto.
Qed.

(** C7: submit is enabled exactly when nothing is being submitted,
    the trimmed title has at least 3 characters, the trimmed
    description at least 10, and, for a model request, the model name
    or the provider is not blank; for the other types the model fields
    do not matter. *)
Theorem canSubmit_iff (isSubmitting : bool) (f : Form) :
  (canSubmit isSubmitting f = true <->
     isSubmitting = false
     /\ 3 <= Js.length (Js.trim (title f))
     /\ 10 <= Js.length (Js.trim (description f))
     /\ (formType f = model_request ->
         Js.trim (modelName f) <> "" \/ Js.trim (modelProvider f) <> ""))
  /\ (formType f <> model_request -> forall n pr,
        canSubmit isSubmitting (setModelName n (setModelProvider pr f))
        = canSubmit isSubmitting f).
Proof.
  split.
  - unfold canSubmit.
    rewrite !andb_true_iff, !negb_true_iff, !Z.geb_le.
    assert (modelInfoRequired f = false <->
            (formType f = model_request ->
             Js.trim (modelName f) <> "" \/ Js.trim (modelProvider f) <> ""))
      as ->; [|tauto].
    rewrite <- not_true_iff_false, modelInfoRequired_iff.
    destruct (decide (Js.trim (modelName f) = ""));
      destruct (decide (Js.trim (modelProvider f) = "")); tauto.
  - intros Hne n pr. unfold canSubmit, modelInfoRequired. simpl.
    by rewrite !bool_decide_eq_false_2.
Qed.

(** The three cases the specification lists. *)
Lemma canSubmit_iff_witness :
  let f := initial bug_report "" "" "production" in
  let ten := "ten chars!" in
  canSubmit false (setDescription ten (setTitle "ab" f)) = false
  /\ canSubmit false (setDescription ten (setTitle "abc" f)) = true
  /\ canSubmit false
       (setFormType model_request (setDescription ten (setTitle "abc" f)))
     = false.
Proof.
  intros f ten. split; [|split].
  - apply not_true_iff_false. intros H.
    apply (proj1 (canSubmit_iff _ _)) in H as (_ & H & _). by vm_compute in H.
  - apply (proj1 (canSubmit_iff _ _)). by vm_compute.
  - apply not_true_iff_false. intros H.
    apply (proj1 (canSubmit_iff _ _)) in H as (_ & _ & _ & H).
    destruct (H eq_refl) as [E|E]; by apply E.
Defined.

(** C8: a change of the selected type empties the metadata map, the
    reference link and the attached files, and keeps title,
    description and contact name and e-mail; going from model request
    to bug report and back leaves the metadata empty. *)
Theorem type_switch_resets_per_type_fields (f : Form) (t : FeedbackType) :
  t <> formType f ->
  let f' := onFormTypeChange t f in
  formType f' = t
  /\ meta f' = ∅ /\ referenceUrl f' = "" /\ fileAttachments f' = []
  /\ title f' = title f /\ description f' = description f
  /\ name f' = name f /\ email f' = email f
  /\ (formType f = model_request -> forall v,
        meta (onFormTypeChange model_request
                (onFormTypeChange bug_report (updateMeta "use_case" v f)))
        = ∅).
Proof.
  intros Hne f'. subst f'. unfold onFormTypeChange.
  destruct (decide (t = formType f)); [contradiction|].
  repeat split. intros Hf v. simpl. rewrite Hf. reflexivity.
Qed.

Lemma type_switch_resets_per_type_fields_witness :
  let a := FileUpload.mkMeta "a1" "log.txt" "s1" "text/plain" 9 "local" "/u/s1" in
  let f := setFileAttachments [a]
             (setReferenceUrl "https://example.org/issue"
                (updateMeta "use_case" "batch scoring"
                   (setTitle "Add model"
                      (initial model_request "Ada" "ada@example.org" "")))) in
  let f' := onFormTypeChange bug_report f in
  meta f' = ∅ /\ referenceUrl f' = "" /\ fileAttachments f' = []
  /\ title f' = "Add model" /\ name f' = "Ada"
  /\ meta (onFormTypeChange model_request f') = ∅.
Proof.
  intros a f f'.
  destruct (type_switch_resets_per_type_fields f bug_report)
    as (_ & Hm & Hr & Ha & Ht & _ & Hn & _ & _); [discriminate|].
  destruct (type_switch_resets_per_type_fields f' model_request)
    as (_ & Hm' & _); [discriminate|].
  repeat split; assumption.
Defined.

End SubmitFeedbackModalSpec.

(** * Further properties *)

(** ** Attachment uploader *)

Module FileUploadMore.

Import FileUpload FileUploadUi.

Lemma omap_length_le {A B} (f : A -> option B) (l : list A) :
  (length (omap f l) <= length l)%nat.
Proof.
  induction l as [|a l IH]; csimpl; [lia|].
  destruct (f a); csimpl; lia.
Qed.

Lemma allSettled_length rs outs :
  allSettled rs = Some outs -> length outs = length rs.
Proof.
  revert outs. induction rs as [|[o|] rs IH]; intros outs H; simpl in *.
  - by injection H as <-.
  - destruct (allSettled rs) as [os|]; [|discriminate].
    injection H as <-. simpl. f_equal. by apply IH.
  - discriminate.
Qed.

Lemma start_batch_length attachments files u u' b :
  uploadFiles_start attachments files u = (u', Some b) ->
  (length attachments + length b <= 3)%nat.
Proof.
  intros H.
  destruct (Nat.le_gt_cases 3 (length attachments)) as [Hfull|Hroom].
  - rewrite FileUploadSpec.start_full in H by done. discriminate.
  - rewrite FileUploadSpec.start_room in H by done. cbn zeta in H.
    destruct (validate _); [discriminate|]. injection H as _ <-.
    rewrite length_take. lia.
Qed.

(** The list never grows beyond three entries: whatever the uploads
    yield and in whatever order they end, a call of [uploadFiles] on a
    list of at most three attachments leaves at most three. *)
Theorem uploadFiles_keeps_capacity
    (files : list File) (outcomes : list Outcome) (order : list nat)
    (w w' : World) :
  (length (attachments w) <= 3)%nat ->
  uploadFiles files outcomes order w = Some w' ->
  (length (attachments w') <= 3)%nat.
Proof.
  intros Hcap. unfold uploadFiles.
  destruct (uploadFiles_start _ _ _) as [u [b|]] eqn:Hstart.
  2: { intros [= <-]. exact Hcap. }
  apply start_batch_length in Hstart.
  pose proof (FileUploadSpec.resolveAll_frame outcomes order
                (suspend (attachments w) b) (mkWorld u (attachments w)))
    as (Hc & _ & Hl & Ha).
  destruct (resolveAll _ _ _) as [c1 w1]. simpl in *.
  rewrite length_replicate in Hl.
  destruct (allSettled (results c1)) as [rs|] eqn:Hrs; [|discriminate].
  apply allSettled_length in Hrs.
  pose proof (omap_length_le fulfilled rs) as Hle.
  destruct (omap fulfilled rs) as [|m ms]; simpl.
  - intros [= <-]. by rewrite Ha.
  - intros [= <-]. simpl. rewrite length_app, Hc. simpl in *. lia.
Qed.

Lemma uploadFiles_keeps_capacity_witness :
  let a := mkMeta "a0" "old.txt" "s0" "text/plain" 3 "local" "/u/s0" in
  let m n := mkMeta n n n "image/png" 1 "local" n in
  let fs := [mkFile 1 "1.png" 1; mkFile 2 "2.png" 1; mkFile 3 "3.png" 1] in
  exists w',
    uploadFiles fs [Fulfilled (m "1"); Fulfilled (m "2")] [0; 1]%nat
      (mkWorld (mkUploader [] None) [a]) = Some w'
    /\ (length (attachments w') <= 3)%nat.
Proof.
  intros a m fs. eexists. split; [reflexivity|].
  eapply (uploadFiles_keeps_capacity fs
            [Fulfilled (m "1"); Fulfilled (m "2")] [0; 1]%nat
            (mkWorld (mkUploader [] None) [a]));
    [simpl; lia | reflexivity].
Defined.

(** Removing an attachment by id removes every entry with that id and
    nothing else, keeps the order of the rest, and does not touch the
    uploader's own state; removing an id that is absent changes
    nothing. *)
Theorem removeAttachment_spec (i : string) (w : World) :
  let w' := removeAttachment i w in
  (forall a, a ∈ attachments w' <-> a ∈ attachments w /\ id a <> i)
  /\ attachments w' `sublist_of` attachments w
  /\ uploader w' = uploader w
  /\ removeAttachment i w' = w'
  /\ (Forall (fun a => id a <> i) (attachments w) -> w' = w).
Proof.
  destruct w as [u atts]. unfold removeAttachment. simpl.
  assert (Hchar : forall a,
    a ∈ List.filter (fun a => negb (String.eqb (id a) i)) atts
    <-> a ∈ atts /\ id a <> i).
  { intros a. rewrite !list_elem_of_In, filter_In, negb_true_iff.
    destruct (String.eqb_spec (id a) i); split; intros [? ?]; done. }
  repeat split.
  - by apply Hchar.
  - by apply Hchar.
  - intros [? ?]. by apply Hchar.
  - clear Hchar. induction atts as [|a atts IH]; simpl; [constructor|].
    destruct (negb _); [by apply sublist_skip | by apply sublist_cons].
  - clear Hchar. f_equal. induction atts as [|a atts IH]; simpl; [done|].
    destruct (negb (String.eqb (id a) i)) eqn:E; simpl; [|exact IH].
    by rewrite E, IH.
  - clear Hchar. intros Hall. f_equal. induction Hall as [|a atts Ha _ IH]; simpl; [done|].
    destruct (String.eqb_spec (id a) i); [contradiction|]. simpl. by rewrite IH.
Qed.

Lemma occurs_split c s :
  Js.occurs c s = true ->
  exists pre suf, s = pre +:+ String c suf /\ Js.occurs c suf = false.
Proof.
  induction s as [|a s IH]; simpl; [discriminate|].
  destruct (Js.occurs c s) eqn:E.
  - intros _. destruct (IH eq_refl) as (pre & suf & -> & Hsuf).
    by exists (String a pre), suf.
  - rewrite orb_false_r. intros Ha. apply Ascii.eqb_eq in Ha as ->.
    by exists "", s.
Qed.

(** A name passes the extension check exactly when it reads
    [pre.suf] with no dot in [suf] and [.suf], in lower case, is one of
    the ten allowed extensions; and the extension is empty exactly for
    names without a dot. *)
Theorem extension_check_spec (name : string) :
  (Js.includes ALLOWED_EXTENSIONS (getExtension name) = true <->
     exists pre suf,
       name = pre +:+ String "." suf /\ Js.occurs "." suf = false
       /\ String "." (Js.toLowerCase suf) ∈ ALLOWED_EXTENSIONS)
  /\ (getExtension name = "" <-> Js.occurs "." name = false).
Proof.
  destruct (Js.occurs "." name) eqn:E.
  - destruct (occurs_split _ _ E) as (pre & suf & -> & Hsuf).
    rewrite (FileUploadSpec.getExtension_last_dot pre suf Hsuf).
    split; [|split; discriminate].
    rewrite FileUploadSpec.includes_elem. split.
    + intros H. by exists pre, suf.
    + intros (pre' & suf' & Heq & Hsuf' & H).
      pose proof (FileUploadSpec.getExtension_last_dot pre suf Hsuf) as E1.
      rewrite Heq in E1.
      rewrite (FileUploadSpec.getExtension_last_dot pre' suf' Hsuf') in E1.
      by rewrite <- E1.
  - rewrite (FileUploadSpec.getExtension_no_dot name E). split; [|done].
    split; [discriminate|].
    intros (pre & suf & -> & _ & _). exfalso. clear -E.
    induction pre as [|a pre IH]; simpl in E.
    + discriminate.
    + apply orb_false_iff in E as [_ E]. by apply IH.
Qed.

Lemma filter_fresh (b : list File) :
  List.filter (fun p => match status p with uploading => true | _ => false end)
              (map (fun f => mkPending f uploading None None) b)
  = map (fun f => mkPending f uploading None None) b.
Proof. induction b as [|g b IH]; simpl; [done|]. by rewrite IH. Qed.

(** The cut of a batch does not count uploads in flight: while the
    picker is still offered (fewer than three entries, uploads in
    flight included), a picked or dropped batch is cut to three minus
    the attachments alone, so the entries shown can exceed the limit by
    the number of uploads in flight. *)
Theorem truncation_ignores_uploads_in_flight
    (attachments : list AttachmentMeta) (u : Uploader) (files : list File) :
  let batch := take (3 - length attachments)%nat files in
  handleClick false attachments u = true ->
  files <> [] ->
  Forall valid batch ->
  exists u',
    handleFileChange files attachments u = Some (u', Some batch)
    /\ handleDrop false files attachments u = Some (u', Some batch)
    /\ totalCount attachments u'
       = totalCount attachments u + Z.of_nat (length batch)
    /\ ((3 - length attachments <= length files)%nat ->
        totalCount attachments u'
        = 3 + (totalCount attachments u - Z.of_nat (length attachments))).
Proof.
  intros batch Hclick Hne Hvalid.
  assert (Hroom : (length attachments < 3)%nat).
  { unfold handleClick, MAX_FILES, totalCount in Hclick. simpl in Hclick.
    apply Z.ltb_lt in Hclick. lia. }
  unfold handleFileChange, handleDrop.
  destruct files as [|f files]; [done|]. simpl Nat.ltb. cbn iota.
  rewrite FileUploadSpec.start_room by done. cbn zeta. fold batch.
  rewrite FileUploadSpec.validate_pass by done.
  eexists. split; [reflexivity|]. split; [reflexivity|].
  assert (Hcount : totalCount attachments
            {| pending := pending u ++ map (fun f => mkPending f uploading None None) batch;
               uerror := None |}
          = totalCount attachments u + Z.of_nat (length batch)).
  { unfold totalCount. simpl. rewrite List.filter_app, length_app.
    rewrite filter_fresh, length_map. lia. }
  split; [exact Hcount|].
  intros Hlen. rewrite Hcount. subst batch. rewrite length_take. lia.
Qed.

Lemma truncation_ignores_uploads_in_flight_witness :
  let busy := map (fun n => mkPending (mkFile n "big.pdf" 9000000)
                                      uploading None None) [1; 2]%nat in
  let fs := [mkFile 3 "a.png" 1; mkFile 4 "b.png" 1; mkFile 5 "c.png" 1] in
  exists u',
    handleFileChange fs [] (mkUploader busy None) = Some (u', Some fs)
    /\ totalCount [] u' = 5.
Proof.
  intros busy fs.
  destruct (truncation_ignores_uploads_in_flight [] (mkUploader busy None) fs)
    as (u' & H1 & _ & _ & H4).
  - reflexivity.
  - discriminate.
  - repeat (constructor;
            [split; [by apply FileUploadSpec.includes_elem | by vm_compute]|]).
    constructor.
  - exists u'. split; [exact H1|]. rewrite H4; [reflexivity|simpl; lia].
Defined.

(** Two overlapping calls lose an update: both closures hold the list
    as it was before either call, so when the second call has a
    success its [onChange] puts back that list with only its own
    uploads, and the uploads of the first call are gone. *)
Theorem overlapping_uploads_last_wins
    (filesA filesB bA bB : list File) (uA uB : Uploader)
    (outcomesA outcomesB : list Outcome) (orderA orderB : list nat)
    (w : World) :
  uploadFiles_start (attachments w) filesA (uploader w) = (uA, Some bA) ->
  uploadFiles_start (attachments w) filesB uA = (uB, Some bB) ->
  length outcomesA = length bA -> orderA ≡ₚ seq 0 (length bA) ->
  length outcomesB = length bB -> orderB ≡ₚ seq 0 (length bB) ->
  exists w',
    uploadFiles_overlapping filesA filesB outcomesA outcomesB orderA orderB w
      = Some w'
    /\ attachments w' =
         attachments w
         ++ match omap fulfilled outcomesB with
            | [] => omap fulfilled outcomesA
            | successesB => successesB
            end.
Proof.
  intros HA HB HlA HpA HlB HpB. unfold uploadFiles_overlapping.
  rewrite HA, HB.
  pose proof (FileUploadSpec.resolveAll_complete outcomesA orderA bA
                (attachments w) (mkWorld uB (attachments w)) HlA HpA) as HrA.
  pose proof (FileUploadSpec.resolveAll_frame outcomesA orderA
                (suspend (attachments w) bA) (mkWorld uB (attachments w)))
    as (HcA & _ & _ & HaA).
  destruct (resolveAll outcomesA orderA _) as [cA wA]. simpl in *.
  rewrite HrA, FileUploadSpec.allSettled_all.
  set (wA' := if (0 <? length (omap fulfilled outcomesA))%nat
              then mkWorld (uploader wA)
                           (captured cA ++ omap fulfilled outcomesA)
              else wA).
  pose proof (FileUploadSpec.resolveAll_complete outcomesB orderB bB
                (attachments w) wA' HlB HpB) as HrB.
  pose proof (FileUploadSpec.resolveAll_frame outcomesB orderB
                (suspend (attachments w) bB) wA') as (HcB & _ & _ & HaB).
  assert (Hsome :
    (if (0 <? length (omap fulfilled outcomesA))%nat
     then Some (mkWorld (uploader wA) (captured cA ++ omap fulfilled outcomesA))
     else Some wA) = Some wA') by (subst wA'; by destruct (_ <? _)%nat).
  rewrite Hsome.
  destruct (resolveAll outcomesB orderB _) as [cB wB]. simpl in *.
  rewrite HrB, FileUploadSpec.allSettled_all.
  destruct (omap fulfilled outcomesB) as [|m ms] eqn:EB; simpl.
  - eexists. split; [reflexivity|]. rewrite HaB. subst wA'.
    destruct (omap fulfilled outcomesA) as [|a l]; simpl.
    + by rewrite HaA, app_nil_r.
    + by rewrite HcA.
  - eexists. split; [reflexivity|]. simpl. by rewrite HcB.
Qed.

(** One file is picked, and a second one before the first has been
    stored; both uploads succeed. *)
Lemma overlapping_uploads_last_wins_witness :
  let m1 := mkMeta "a1" "one.png" "s1" "image/png" 10 "local" "/u/s1" in
  let m2 := mkMeta "a2" "two.png" "s2" "image/png" 20 "local" "/u/s2" in
  exists w',
    uploadFiles_overlapping [mkFile 1 "one.png" 10] [mkFile 2 "two.png" 20]
      [Fulfilled m1] [Fulfilled m2] [0%nat] [0%nat]
      (mkWorld (mkUploader [] None) []) = Some w'
    /\ attachments w' = [m2].
Proof.
  intros m1 m2.
  eapply (overlapping_uploads_last_wins
            [mkFile 1 "one.png" 10] [mkFile 2 "two.png" 20]);
    reflexivity.
Defined.

(** *** The progress list *)

Lemma settleTask_pending f o u :
  pending (settleTask f o u) = map (touch f o) (pending u).
Proof. destruct o; reflexivity. Qed.

Lemma sameFile_refl f : sameFile f f = true.
Proof. apply Nat.eqb_refl. Qed.

Lemma touch_own f o e :
  e = fresh f \/ e = settled f o -> touch f o e = settled f o.
Proof.
  intros [-> | ->]; unfold touch; destruct o; simpl;
    by rewrite sameFile_refl.
Qed.

Lemma touch_other f o e : sameFile (file e) f = false -> touch f o e = e.
Proof. intros H. unfold touch. by rewrite H. Qed.

Lemma distinct_sameFile b i j f g :
  distinct b -> b !! i = Some f -> b !! j = Some g ->
  sameFile f g = true -> i = j.
Proof.
  intros Hd Hi Hj Hs. apply Nat.eqb_eq in Hs.
  apply (NoDup_lookup (map fid b) i j (fid f) Hd).
  - by rewrite list_lookup_fmap, Hi.
  - by rewrite list_lookup_fmap, Hj, Hs.
Qed.

Lemma progress_nil outcomes b : progress outcomes [] b = map fresh b.
Proof.
  apply list_eq. intros i. unfold progress.
  rewrite list_lookup_imap, list_lookup_fmap.
  destruct (b !! i); simpl; [|done]. by destruct (outcomes !! i).
Qed.

Lemma progress_file outcomes order b i e :
  progress outcomes order b !! i = Some e ->
  exists f, b !! i = Some f /\ file e = f
            /\ (e = fresh f \/ exists o, outcomes !! i = Some o /\ e = settled f o).
Proof.
  unfold progress. rewrite list_lookup_imap.
  destruct (b !! i) as [f|]; simpl; [|discriminate].
  intros [= <-]. exists f. split; [done|].
  destruct (outcomes !! i) as [o|]; [|by auto].
  destruct (bool_decide _); [|by auto].
  split; [by destruct o|]. right. by exists o.
Qed.

(** One more upload ends: the progress list moves on by one step. *)
Lemma progress_step outcomes order b j f o :
  distinct b -> b !! j = Some f -> outcomes !! j = Some o ->
  map (touch f o) (progress outcomes order b)
  = progress outcomes (order ++ [j]) b.
Proof.
  intros Hd Hj Ho. apply list_eq. intros i.
  rewrite list_lookup_fmap.
  destruct (progress outcomes order b !! i) as [e|] eqn:He; simpl.
  - destruct (progress_file _ _ _ _ _ He) as (g & Hg & Hfile & Hshape).
    unfold progress in *. rewrite list_lookup_imap, Hg in *. simpl in *.
    f_equal. destruct (decide (i = j)) as [->|Hne].
    + assert (g = f) as -> by congruence. rewrite Ho in *.
      rewrite (bool_decide_eq_true_2 (j ∈ order ++ [j]))
        by (apply elem_of_app; right; by apply list_elem_of_singleton).
      apply touch_own. destruct Hshape as [?|(o' & Ho' & ?)]; [by left|].
      right. congruence.
    + rewrite touch_other.
      * injection He as <-. destruct (outcomes !! i); [|done].
        assert (bool_decide (i ∈ order) = bool_decide (i ∈ order ++ [j])) as ->;
          [|done].
        apply bool_decide_ext. rewrite elem_of_app, list_elem_of_singleton.
        tauto.
      * rewrite Hfile. destruct (sameFile g f) eqn:Hs; [|done].
        destruct Hne. by apply (distinct_sameFile b i j g f).
  - unfold progress in *. rewrite list_lookup_imap in *.
    destruct (b !! i); [discriminate|done].
Qed.

Lemma progress_skip outcomes order b j :
  outcomes !! j = None \/ b !! j = None ->
  progress outcomes (order ++ [j]) b = progress outcomes order b.
Proof.
  intros Hj. apply list_eq. intros i. unfold progress.
  rewrite !list_lookup_imap.
  destruct (b !! i) as [g|] eqn:Hg; simpl; [|done]. f_equal.
  destruct (outcomes !! i) as [o|] eqn:Ho; [|done].
  assert (i <> j) by (intros ->; destruct Hj; congruence).
  assert (bool_decide (i ∈ order ++ [j]) = bool_decide (i ∈ order)) as ->;
    [|done].
  apply bool_decide_ext. rewrite elem_of_app, list_elem_of_singleton. tauto.
Qed.

Lemma touch_apart l b j f o :
  apart l b -> b !! j = Some f -> map (touch f o) l = l.
Proof.
  intros Ha Hj. induction l as [|p l IH]; simpl; [done|].
  rewrite touch_other, IH; [done| |].
  - intros q g Hq. apply Ha. by right.
  - apply Ha; [by left|]. by eapply list_elem_of_lookup_2.
Qed.

(** The entries of earlier calls stay as they are, and the entries of
    this batch are those of [progress]. *)
Lemma resolveAll_pending outcomes order atts b u others :
  distinct b -> apart others b ->
  pending u = others ++ map fresh b ->
  pending (uploader (snd (resolveAll outcomes order
                            (suspend atts b, mkWorld u atts))))
  = others ++ progress outcomes order b.
Proof.
  intros Hd Ha Hu. induction order as [|j order IH] using rev_ind.
  { simpl. by rewrite Hu, progress_nil. }
  rewrite FileUploadSpec.resolveAll_snoc.
  pose proof (FileUploadSpec.resolveAll_frame outcomes order
                (suspend atts b) (mkWorld u atts)) as (_ & Hb & _ & _).
  destruct (outcomes !! j) as [o|] eqn:Ho.
  2: { rewrite IH. by rewrite progress_skip by auto. }
  destruct (resolveAll outcomes order _) as [c1 w1]. simpl in *.
  rewrite Hb. destruct (b !! j) as [f|] eqn:Hj; simpl.
  - rewrite settleTask_pending, IH, map_app.
    rewrite (touch_apart others b j f o Ha Hj).
    by rewrite (progress_step outcomes order b j f o Hd Hj Ho).
  - rewrite IH. by rewrite progress_skip by auto.
Qed.

Lemma progress_complete outcomes order b :
  length outcomes = length b -> order ≡ₚ seq 0 (length b) ->
  progress outcomes order b = zip_with settled b outcomes.
Proof.
  intros Hlen Hperm. apply list_eq. intros i. unfold progress.
  rewrite list_lookup_imap, lookup_zip_with.
  destruct (b !! i) as [f|] eqn:Hf; simpl; [|done].
  destruct (lookup_lt_is_Some_2 outcomes i) as [o Ho].
  { rewrite Hlen. by eapply lookup_lt_Some. }
  rewrite Ho. simpl. rewrite bool_decide_eq_true_2; [done|].
  rewrite Hperm. apply elem_of_seq. apply lookup_lt_Some in Hf. lia.
Qed.

(** When the uploads of a batch have all ended, in whatever order, the
    progress list shows the entries of earlier calls unchanged, followed
    by one entry per file of the batch, in batch order: "done" with the
    metadata, or "error" with the message of the error, "Upload failed"
    if what was thrown is no [Error]. *)
Theorem pending_after_settlement
    (files b : list File) (u : Uploader) (outcomes : list Outcome)
    (order : list nat) (w : World) :
  distinct b -> apart (pending (uploader w)) b ->
  uploadFiles_start (attachments w) files (uploader w) = (u, Some b) ->
  length outcomes = length b ->
  order ≡ₚ seq 0 (length b) ->
  exists w',
    uploadFiles files outcomes order w = Some w'
    /\ pending (uploader w')
       = pending (uploader w) ++ zip_with settled b outcomes.
Proof.
  intros Hd Ha Hstart Hlen Hperm. unfold uploadFiles. rewrite Hstart.
  assert (Hu : pending u = pending (uploader w) ++ map fresh b).
  { destruct (Nat.le_gt_cases 3 (length (attachments w))) as [Hfull|Hroom].
    - rewrite FileUploadSpec.start_full in Hstart by done. discriminate.
    - rewrite FileUploadSpec.start_room in Hstart by done. cbn zeta in Hstart.
      destruct (validate _); [discriminate|]. by injection Hstart as <- <-. }
  pose proof (resolveAll_pending outcomes order (attachments w) b u _
                Hd Ha Hu) as Hp.
  rewrite (progress_complete outcomes order b Hlen Hperm) in Hp.
  pose proof (FileUploadSpec.resolveAll_complete outcomes order b
                (attachments w) (mkWorld u (attachments w)) Hlen Hperm) as Hres.
  destruct (resolveAll _ _ _) as [c1 w1]. simpl in *.
  rewrite Hres, FileUploadSpec.allSettled_all.
  destruct (0 <? length (omap fulfilled outcomes))%nat;
    eexists; (split; [reflexivity|]); exact Hp.
Qed.

Lemma pending_after_settlement_witness :
  let m1 := mkMeta "a1" "one.png" "s1" "image/png" 10 "local" "/u/s1" in
  let f1 := mkFile 1 "one.png" 10 in
  let f2 := mkFile 2 "two.pdf" 20 in
  exists w',
    uploadFiles [f1; f2] [Fulfilled m1; Rejected None] [1; 0]%nat
                (mkWorld (mkUploader [] None) []) = Some w'
    /\ pending (uploader w')
       = [mkPending f1 done (Some m1) None;
          mkPending f2 error None (Some "Upload failed")].
Proof.
  intros m1 f1 f2.
  apply (pending_after_settlement [f1; f2] [f1; f2]
           (mkUploader (map fresh [f1; f2]) None)).
  - unfold distinct. simpl. apply (bool_decide_unpack _). by vm_compute.
  - intros p f Hp. by apply elem_of_nil in Hp.
  - reflexivity.
  - reflexivity.
  - simpl. apply perm_swap.
Defined.

(** Two seconds after the uploads of a batch have ended the clean-up
    removes every entry of the batch, successful or failed, and keeps
    of the earlier entries exactly those still uploading. *)
Theorem cleanup_after_settlement
    (files b : list File) (u : Uploader) (outcomes : list Outcome)
    (order : list nat) (w : World) :
  distinct b -> apart (pending (uploader w)) b ->
  uploadFiles_start (attachments w) files (uploader w) = (u, Some b) ->
  length outcomes = length b ->
  order ≡ₚ seq 0 (length b) ->
  exists w',
    uploadFiles files outcomes order w = Some w'
    /\ pending (cleanup (uploader w')) = pending (cleanup (uploader w))
    /\ uerror (cleanup (uploader w')) = None.
Proof.
  intros Hd Ha Hstart Hlen Hperm. unfold uploadFiles. rewrite Hstart.
  assert (Hu : pending u = pending (uploader w) ++ map fresh b
               /\ uerror u = None).
  { destruct (Nat.le_gt_cases 3 (length (attachments w))) as [Hfull|Hroom].
    - rewrite FileUploadSpec.start_full in Hstart by done. discriminate.
    - rewrite FileUploadSpec.start_room in Hstart by done. cbn zeta in Hstart.
      destruct (validate _); [discriminate|]. by injection Hstart as <- <-. }
  destruct Hu as [Hu He].
  pose proof (resolveAll_pending outcomes order (attachments w) b u _
                Hd Ha Hu) as Hp.
  rewrite (progress_complete outcomes order b Hlen Hperm) in Hp.
  pose proof (FileUploadSpec.resolveAll_complete outcomes order b
                (attachments w) (mkWorld u (attachments w)) Hlen Hperm) as Hres.
  assert (Herr : uerror (uploader (snd (resolveAll outcomes order
                   (suspend (attachments w) b, mkWorld u (attachments w)))))
                 = None).
  { clear -He. induction order as [|j order IH] using rev_ind; [done|].
    rewrite FileUploadSpec.resolveAll_snoc.
    destruct (outcomes !! j) as [o|]; [|done].
    destruct (resolveAll outcomes order _) as [c1 w1]. simpl in *.
    destruct (batch c1 !! j); [|done]. simpl. by destruct o. }
  destruct (resolveAll _ _ _) as [c1 w1]. simpl in *.
  rewrite Hres, FileUploadSpec.allSettled_all.
  assert (Hclean :
    List.filter (fun p => match status p with uploading => true | _ => false end)
                (pending (uploader w1))
    = List.filter (fun p => match status p with uploading => true | _ => false end)
                  (pending (uploader w))).
  { rewrite Hp, List.filter_app.
    assert (List.filter
              (fun p => match status p with uploading => true | _ => false end)
              (zip_with settled b outcomes) = []) as ->;
      [|by rewrite app_nil_r].
    clear. revert outcomes. induction b as [|f b IH]; intros [|o os]; try done.
    simpl. rewrite IH. by destruct o. }
  destruct (0 <? length (omap fulfilled outcomes))%nat;
    eexists; (split; [reflexivity|]); simpl; by rewrite Hclean.
Qed.

Lemma cleanup_after_settlement_witness :
  let m1 := mkMeta "a1" "one.png" "s1" "image/png" 10 "local" "/u/s1" in
  let f1 := mkFile 1 "one.png" 10 in
  let f2 := mkFile 2 "two.pdf" 20 in
  let other := mkPending (mkFile 7 "big.csv" 900) uploading None None in
  exists w',
    uploadFiles [f1; f2] [Fulfilled m1; Rejected (Some "413")] [0; 1]%nat
                (mkWorld (mkUploader [other] None) []) = Some w'
    /\ pending (cleanup (uploader w')) = [other].
Proof.
  intros m1 f1 f2 other.
  destruct (cleanup_after_settlement [f1; f2] [f1; f2]
              (mkUploader (other :: map fresh [f1; f2]) None)
              [Fulfilled m1; Rejected (Some "413")] [0; 1]%nat
              (mkWorld (mkUploader [other] None) []))
    as (w' & H1 & H2 & _).
  - unfold distinct. simpl. apply (bool_decide_unpack _). by vm_compute.
  - intros p f Hp Hf. apply list_elem_of_singleton in Hp as ->.
    repeat (apply elem_of_cons in Hf as [->|Hf]; [done|]).
    by apply elem_of_nil in Hf.
  - reflexivity.
  - reflexivity.
  - reflexivity.
  - exists w'. split; [exact H1 | exact H2].
Defined.

End FileUploadMore.

(** ** Feedback page *)

Module FeedbackMore.

Import Feedback FeedbackUi.

Ltac step :=
  cbv [exec trace value mbind M_bind mret M_ret
       get request update timeout setClock];
  cbn [fst snd app].

(** *** Toasts *)

Lemma filter_other_ids (l : list Toast) (i : Z) :
  Forall (fun t => t_id t < i) l ->
  List.filter (fun t => negb (t_id t =? i)) l = l.
Proof.
  induction 1 as [|t l Ht _ IH]; simpl; [done|].
  destruct (Z.eqb_spec (t_id t) i); [lia|]. simpl. by rewrite IH.
Qed.

Lemma toasts_fresh_filter (f : Toast -> bool) p :
  toasts_fresh p ->
  toasts_fresh (on_notify (fun n => mkNotify (List.filter f (toasts n))
                                             (toastId n)) p).
Proof.
  intros [Hnd Hle]. unfold toasts_fresh. simpl.
  induction (toasts (notify p)) as [|t l IH]; simpl; [done|].
  apply NoDup_cons in Hnd as [Hnotin Hnd].
  apply Forall_cons in Hle as [Ht Hle].
  destruct (IH Hnd Hle) as [IH1 IH2].
  destruct (f t); simpl; [|done]. split.
  - apply NoDup_cons. split; [|done]. intros Hin. apply Hnotin.
    apply list_elem_of_fmap in Hin as (t' & -> & Hin).
    apply list_elem_of_fmap. exists t'. split; [done|].
    apply list_elem_of_In, filter_In in Hin as [Hin _].
    by apply list_elem_of_In.
  - by apply Forall_cons.
Qed.

(** A new toast gets an id no toast on screen has; it is appended;
    dismissing that id takes away the new toast and nothing else; and
    ids stay distinct under pushing and dismissing. *)
Theorem pushToast_then_dismiss (p : Page) (msg : string) (v : ToastVariant) :
  toasts_fresh p ->
  let i := toastId (notify p) + 1 in
  let q := exec (pushToast msg v) p in
  toasts (notify q) = toasts (notify p) ++ [mkToast i msg v]
  /\ (i ∉ map t_id (toasts (notify p)))
  /\ toasts_fresh q
  /\ toasts (notify (exec (dismissToast i) q)) = toasts (notify p)
  /\ (forall j, toasts_fresh (exec (dismissToast j) q))
  /\ trace (pushToast msg v) p = [Update v_toasts; SetTimeout 5000].
Proof.
  intros [Hnd Hle] i q. subst q.
  assert (Hlt : Forall (fun t => t_id t < i) (toasts (notify p))).
  { eapply Forall_impl; [exact Hle|]. simpl. intros. lia. }
  assert (Hnotin : i ∉ map t_id (toasts (notify p))).
  { intros Hin. apply list_elem_of_fmap in Hin as (t & Ht & Hin).
    rewrite Forall_forall in Hlt. specialize (Hlt t Hin). lia. }
  assert (Hfresh : toasts_fresh (exec (pushToast msg v) p)).
  { unfold pushToast, nextToastId, setToasts, toasts_fresh. step. cbn. split.
    - rewrite map_app. simpl. apply NoDup_app. split; [done|].
      split; [|apply NoDup_singleton].
      intros x Hx Hx'. apply list_elem_of_singleton in Hx' as ->. done.
    - apply Forall_app. split.
      + eapply Forall_impl; [exact Hle|]. simpl. intros. lia.
      + apply Forall_singleton. simpl. lia. }
  split; [reflexivity|]. split; [exact Hnotin|]. split; [exact Hfresh|].
  split; [|split; [|reflexivity]].
  - unfold pushToast, nextToastId, dismissToast, setToasts. step. cbn.
    rewrite List.filter_app, filter_other_ids by done. simpl.
    fold i. rewrite Z.eqb_refl. simpl. apply app_nil_r.
  - intros j. unfold dismissToast, setToasts. step.
    by apply toasts_fresh_filter.
Qed.

Lemma pushToast_then_dismiss_witness :
  let q := exec (pushToast "Comment posted" success;;
                 pushToast "Sign in to upvote feedback." error)
                (mounted None) in
  map t_id (toasts (notify q)) = [1; 2]
  /\ map t_id (toasts (notify (exec (dismissToast 2) q))) = [1].
Proof.
  intros q.
  pose (p1 := exec (pushToast "Comment posted" success) (mounted None)).
  destruct (pushToast_then_dismiss p1 "Sign in to upvote feedback." error)
    as (H1 & _ & _ & H4 & _).
  - split; [apply (bool_decide_unpack _); by vm_compute|].
    repeat constructor. by vm_compute.
  - split.
    + change q with (exec (pushToast "Sign in to upvote feedback." error) p1).
      by rewrite H1.
    + change (map t_id (toasts (notify
                (exec (dismissToast (toastId (notify p1) + 1))
                   (exec (pushToast "Sign in to upvote feedback." error) p1))))
              = [1]).
      by rewrite H4.
Defined.

(** *** Pagination *)

Lemma totalPages_pos n : 1 <= totalPages n.
Proof. unfold totalPages. lia. Qed.

(** The Previous and Next handlers never leave the range of existing
    pages; Next on the last page and Previous on the first change
    nothing; and Previous undoes Next. *)
Theorem navigation_stays_in_range (p : Page) :
  page_in_range p ->
  page_in_range (exec onNext p)
  /\ page_in_range (exec onPrevious p)
  /\ (nextDisabled p = true -> exec onNext p = p)
  /\ (previousDisabled p = true -> exec onPrevious p = p)
  /\ (nextDisabled p = false ->
      page (filters (exec onNext p)) = page (filters p) + 1
      /\ exec onPrevious (exec onNext p) = p).
Proof.
  unfold page_in_range, nextDisabled, previousDisabled, onNext, onPrevious,
    setPage.
  destruct p as [u [tf sf pf sb si sv pg] d ds n c]. step.
  unfold on_filters. simpl.
  pose proof (totalPages_pos (listTotal d)).
  intros Hr. split; [lia|]. split; [lia|]. split; [|split].
  - rewrite Z.geb_le. intros. do 2 f_equal. lia.
  - rewrite Z.eqb_eq. intros. do 2 f_equal. lia.
  - destruct (Z.geb_spec pg (totalPages (listTotal d) - 1)); [done|].
    intros _. split; [lia|]. do 2 f_equal. lia.
Qed.

Lemma navigation_stays_in_range_witness :
  let p := exec (fetchList (Ok (mkListResponse [] 30))) (mounted None) in
  page (filters (exec (onNext;; onNext;; onNext;; onNext) p)) = 2
  /\ page_in_range (exec onNext p).
Proof.
  intros p. split; [reflexivity|].
  apply (navigation_stays_in_range p). by vm_compute.
Defined.

(** On an existing page of a non-empty result the requested window
    starts inside the data: the offset is twelve times the page index,
    not negative and below the total, and the limit is twelve. *)
Theorem offset_within_total (p : Page) :
  1 <= listTotal (data p) -> page_in_range p ->
  q_offset (queryOf p) = 12 * page (filters p)
  /\ q_limit (queryOf p) = 12
  /\ 0 <= q_offset (queryOf p) < listTotal (data p).
Proof.
  unfold page_in_range, queryOf, PAGE_SIZE. simpl. intros Ht Hr.
  destruct (FeedbackSpec.totalPages_ceiling (listTotal (data p)))
    as (c & Hc & Htp).
  rewrite Htp in Hr. lia.
Qed.

Lemma offset_within_total_witness :
  let p := exec (fetchList (Ok (mkListResponse [] 25));; onNext;; onNext)
                (mounted None) in
  q_offset (queryOf p) = 24 /\ q_offset (queryOf p) < 25.
Proof.
  intros p.
  destruct (offset_within_total p) as (H1 & _ & _ & H2);
    [by vm_compute | by vm_compute |].
  split; [by rewrite H1 | exact H2].
Defined.

(** *** Active filters and clearing *)

(** The number of active filters is between 0 and 4 and is 0 exactly
    when type, status and priority are "all" and the committed search
    text is empty; the sort mode and the text still in the box do not
    count, so with only these changed no "Clear filters" button is
    shown. *)
Theorem activeFilters_spec (p : Page) :
  0 <= activeFilters p <= 4
  /\ (activeFilters p = 0 <->
        typeFilter (filters p) = all /\ statusFilter (filters p) = all
        /\ priorityFilter (filters p) = all /\ searchValue (filters p) = "")
  /\ (clearShown p = false <-> activeFilters p = 0)
  /\ (forall v, activeFilters (exec (onSortChange v) p) = activeFilters p)
  /\ (forall s, activeFilters (exec (onSearchInput s) p) = activeFilters p).
Proof.
  destruct p as [u [tf sf pf sb si sv pg] d ds n c].
  unfold clearShown, activeFilters. simpl.
  split; [|split; [|split; [|split]]].
  - destruct tf, sf, pf, sv; simpl; lia.
  - destruct tf, sf, pf, sv; simpl; split; try lia; try done;
      intros (? & ? & ? & ?); done.
  - destruct tf, sf, pf, sv; simpl; split; try lia; try done.
  - reflexivity.
  - intros s. unfold onSearchInput, setSearchInput, armDebounce. step. simpl.
    by destruct (String.eqb s si).
Qed.

Lemma elapse_cases q dt :
  let r := exec (elapse dt) q in
  (filters r = filters q
   /\ (debounce (clock r) = debounce (clock q) \/ debounce (clock r) = None))
  \/ (exists due s,
        debounce (clock q) = Some (due, s)
        /\ debounce (clock r) = None
        /\ filters r =
             mkFilters (typeFilter (filters q)) (statusFilter (filters q))
                       (priorityFilter (filters q)) (sortBy (filters q))
                       (searchInput (filters q)) (Js.trim s) 0).
Proof.
  destruct q as [u f d ds n [t [[due s]|]]];
    unfold elapse, commitSearch, setSearchValue, setPage; step; simpl.
  - destruct (due <=? t + dt); step; simpl.
    + right. exists due, s. done.
    + left. auto.
  - left. auto.
Qed.

Lemma clearAllFilters_state p :
  debounce_current p ->
  let q := exec clearAllFilters p in
  filters q = mkFilters all all all recent "" "" 0
  /\ (forall due s, debounce (clock q) = Some (due, s) -> s = "").
Proof.
  destruct p as [u [tf sf pf sb si sv pg] d ds n [t db]].
  unfold debounce_current, clearAllFilters, setTypeFilter, setStatusFilter,
    setPriorityFilter, setSortBy, setSearchInput, setSearchValue, setPage,
    armDebounce. step. simpl. intros Hcur.
  destruct si as [|c0 si]; step; simpl.
  - split; [done|]. exact Hcur.
  - split; [done|]. by intros due s [= _ <-].
Qed.

(** After "clear all" no stale text comes back: whatever timeout was
    pending, and however much time passes, the box, the committed text
    and every filter stay at their defaults and the page at 0. *)
Theorem clearAllFilters_no_stale_commit (p : Page) (dt : Z) :
  debounce_current p ->
  let r := exec (clearAllFilters ≫= fun _ => elapse dt) p in
  filters r = mkFilters all all all recent "" "" 0
  /\ queryOf r = mkQuery all all all recent "" 12 0
  /\ activeFilters r = 0
  /\ debounce_current r.
Proof.
  intros Hcur r. subst r. rewrite FeedbackSpec.exec_bind.
  destruct (clearAllFilters_state p Hcur) as [Hf Hd].
  set (q := exec clearAllFilters p) in *.
  assert (Hr : filters (exec (elapse dt) q) = mkFilters all all all recent "" "" 0
               /\ debounce_current (exec (elapse dt) q)).
  { destruct (elapse_cases q dt) as [[E Hdb]|(due & s & Hq & Hn & E)].
    - split; [by rewrite E|]. unfold debounce_current. rewrite E, Hf. simpl.
      intros due s H. destruct Hdb as [Hdb|Hdb]; rewrite Hdb in H;
        [by eapply Hd | discriminate].
    - rewrite (Hd _ _ Hq) in E. rewrite Hf in E. simpl in E.
      split; [exact E|]. unfold debounce_current. rewrite Hn. discriminate. }
  destruct Hr as [Hr Hc]. split; [exact Hr|].
  unfold queryOf, activeFilters. rewrite Hr. done.
Qed.

Lemma clearAllFilters_no_stale_commit_witness :
  let p := exec (typing [(0, "gp"); (150, "gpt")]) (mounted None) in
  searchValue (filters (exec (elapse 400) p)) = "gpt"
  /\ filters (exec (clearAllFilters ≫= fun _ => elapse 400) p)
     = mkFilters all all all recent "" "" 0.
Proof.
  intros p. split; [reflexivity|].
  apply (clearAllFilters_no_stale_commit p 400).
  intros due s. by intros [= _ <-].
Defined.



(** *** What holds in every state *)

Lemma keeps_bind F {A B} (m : M A) (k : A -> M B) :
  keeps F m -> (forall a, keeps F (k a)) -> keeps F (m ≫= k).
Proof. intros Hm Hk p Hp. rewrite FeedbackSpec.exec_bind. by apply Hk, Hm. Qed.

Lemma keeps_ret F {A} (a : A) : keeps F (mret a).
Proof. by intros p Hp. Qed.

Lemma keeps_get F : keeps F get.
Proof. by intros p Hp. Qed.

Lemma keeps_request F a : keeps F (request a).
Proof. by intros p Hp. Qed.

Lemma keeps_update F v f : (forall p, F p -> F (f p)) -> keeps F (update v f).
Proof. intros H p Hp. by apply H. Qed.

Lemma keeps_timeout F ms f : (forall p, F p -> F (f p)) -> keeps F (timeout ms f).
Proof. intros H p Hp. by apply H. Qed.

Lemma keeps_setClock F f :
  (forall p, F p -> F (on_clock f p)) -> keeps F (setClock f).
Proof. intros H p Hp. by apply H. Qed.

Lemma pushToast_keeps_fresh msg v : keeps toasts_fresh (pushToast msg v).
Proof.
  intros p [Hnd Hle].
  unfold pushToast, nextToastId, setToasts, toasts_fresh. step. cbn. split.
  - rewrite map_app. simpl. apply NoDup_app. split; [done|].
    split; [|apply NoDup_singleton].
    intros x Hx Hx'. apply list_elem_of_singleton in Hx' as ->.
    apply list_elem_of_fmap in Hx as (t & Ht & Hin).
    rewrite Forall_forall in Hle. specialize (Hle t Hin). simpl in *. lia.
  - apply Forall_app. split.
    + eapply Forall_impl; [exact Hle|]. simpl. intros. lia.
    + apply Forall_singleton. simpl. lia.
Qed.

Lemma dismissToast_keeps_fresh i : keeps toasts_fresh (dismissToast i).
Proof. intros p Hp. by apply toasts_fresh_filter. Qed.

Lemma pushToast_keeps_filters msg v : keeps filters_sane (pushToast msg v).
Proof. by intros p Hp. Qed.

Lemma dismissToast_keeps_filters i : keeps filters_sane (dismissToast i).
Proof. by intros p Hp. Qed.

Create HintDb handlers.
#[local] Hint Unfold perform onTypeChange onStatusChange onPriorityChange
  onSortChange onHintAction onNext onPrevious fetchList_begin fetchList_end
  fetchList fetchSummary_begin fetchSummary_end handleUpvote_begin
  handleUpvote_end toggleComments_begin toggleComments_end handleSubmitComment
  onCommentDraftChange armDebounce onSearchInput commitSearch elapse
  clearAllFilters
  setTypeFilter setStatusFilter setPriorityFilter setSortBy setSearchInput
  setSearchValue setPage setItems setSummary setListTotal setIsLoading
  setExpandedId setCommentsById setCommentDrafts setCommentLoadingId
  setUpvoteLoadingId : handlers.

(** Walks through a handler; [leaf] settles the state changes. *)
Ltac walk leaf :=
  repeat first
    [ apply keeps_ret | apply keeps_get | apply keeps_request
    | apply pushToast_keeps_fresh | apply dismissToast_keeps_fresh
    | apply pushToast_keeps_filters | apply dismissToast_keeps_filters
    | apply keeps_bind; [|intros ?]
    | apply keeps_update; leaf
    | apply keeps_timeout; leaf
    | apply keeps_setClock; leaf
    | match goal with
      | |- keeps _ (match ?x with _ => _ end) => destruct x
      | |- keeps _ (if ?b then _ else _) => destruct b
      end ].

Ltac untouched :=
  let p := fresh in let Hp := fresh in
  intros p Hp; exact Hp.

Lemma perform_keeps_fresh a : keeps toasts_fresh (perform a).
Proof. destruct a; autounfold with handlers; walk untouched. Qed.

Lemma onSearchInput_keeps_filters s : keeps filters_sane (onSearchInput s).
Proof.
  intros [u [tf sf pf sb si sv pg] d ds n [t db]] (Hcur & Hpg & Htrim).
  unfold onSearchInput, setSearchInput, armDebounce, filters_sane,
    debounce_current, search_trimmed in *. step. simpl in *.
  destruct (String.eqb_spec s si) as [->|Hne]; step; simpl.
  - done.
  - split; [|done]. by intros due s' [= _ <-].
Qed.

Lemma elapse_keeps_filters dt : keeps filters_sane (elapse dt).
Proof.
  intros q (Hcur & Hpg & Htrim).
  unfold filters_sane, debounce_current, search_trimmed in *.
  destruct (elapse_cases q dt) as [[E Hdb]|(due & s & Hq & Hn & E)];
    rewrite E.
  - split; [|done]. intros due s H.
    destruct Hdb as [Hdb|Hdb]; rewrite Hdb in H; [by eapply Hcur|discriminate].
  - simpl. rewrite Hn. split; [discriminate|]. split; [lia|].
    apply JsFacts.trim_idem.
Qed.

Lemma clearAllFilters_keeps_filters : keeps filters_sane clearAllFilters.
Proof.
  intros p (Hcur & _ & _).
  destruct (clearAllFilters_state p Hcur) as [Hf Hd].
  unfold filters_sane, debounce_current, search_trimmed. rewrite Hf. simpl.
  split; [exact Hd|]. split; [lia|done].
Qed.

Ltac filters_leaf :=
  let p := fresh "p" in let Hp := fresh "Hp" in
  intros p Hp;
  first
    [ exact Hp
    | destruct p as [? [? ? ? ? ? ? ?] ? ? ? ?];
      destruct Hp as (? & ? & ?);
      unfold filters_sane, debounce_current, search_trimmed in *; simpl in *;
      repeat split; first [assumption | lia] ].

Lemma perform_keeps_filters a : keeps filters_sane (perform a).
Proof.
  destruct a;
    try apply onSearchInput_keeps_filters;
    try apply elapse_keeps_filters;
    try apply clearAllFilters_keeps_filters;
    autounfold with handlers; walk filters_leaf.
  (* Next: the clamp needs the number of pages to be positive *)
  intros p Hp. destruct p as [? [? ? ? ? ? ? pg] ? ? ? ?].
  destruct Hp as (? & ? & ?).
  unfold filters_sane, debounce_current, search_trimmed in *; simpl in *.
  pose proof (totalPages_pos (listTotal (data a))).
  repeat split; first [assumption | lia].
Qed.

Lemma mounted_sane u : filters_sane (mounted u) /\ toasts_fresh (mounted u).
Proof.
  split; [split; [|split]|split].
  - intros due s. by intros [= _ <-].
  - done.
  - done.
  - apply NoDup_nil_2.
  - constructor.
Qed.

(** In every state the page can reach: a pending debounce timeout
    holds the text now in the box; the page index is not negative, so
    neither is the offset of a list request; the committed search text
    has no white space around it; and the toasts on screen have
    distinct ids. *)
Theorem reachable_invariants (p : Page) :
  reachable p ->
  debounce_current p
  /\ 0 <= page (filters p) /\ 0 <= q_offset (queryOf p)
  /\ search_trimmed p
  /\ toasts_fresh p.
Proof.
  intros Hr.
  assert (H : filters_sane p /\ toasts_fresh p).
  { induction Hr as [u|p a _ [IH1 IH2]]; [apply mounted_sane|].
    split; [by apply perform_keeps_filters | by apply perform_keeps_fresh]. }
  destruct H as [(H1 & H2 & H3) H4].
  split; [exact H1|]. split; [exact H2|]. split; [|split; assumption].
  unfold queryOf, PAGE_SIZE. simpl. lia.
Qed.

Lemma reachable_invariants_witness :
  let p := exec (perform (Search " gpt ");; perform (Elapse 500);;
                 perform (ListFetched (Err "offline"));;
                 perform Previous) (mounted None) in
  searchValue (filters p) = "gpt" /\ search_trimmed p /\ toasts_fresh p.
Proof.
  intros p. split; [reflexivity|].
  assert (Hr : reachable p).
  { subst p. rewrite !FeedbackSpec.exec_bind. repeat constructor. }
  destruct (reachable_invariants p Hr) as (_ & _ & _ & H4 & H5).
  split; [exact H4 | exact H5].
Defined.

(** *** Fetching the list *)

(** A list fetch sends one request, built from the filters and the
    page; a failed one keeps the items and the total that were shown
    and adds one error toast; a successful one replaces both; either
    way the loading flag ends false and filters and discussion state
    are untouched. *)
Theorem fetchList_outcome (p : Page) :
  (forall r,
     requests (trace (fetchList r) p) = [listFeedback (queryOf p)]
     /\ isLoading (data (exec (fetchList r) p)) = false
     /\ filters (exec (fetchList r) p) = filters p
     /\ discussion (exec (fetchList r) p) = discussion p
     /\ summary (data (exec (fetchList r) p)) = summary (data p))
  /\ (forall response,
        let q := exec (fetchList (Ok response)) p in
        items (data q) = r_items response
        /\ listTotal (data q) = r_total response
        /\ notify q = notify p)
  /\ (forall msg,
        let q := exec (fetchList (Err msg)) p in
        items (data q) = items (data p)
        /\ listTotal (data q) = listTotal (data p)
        /\ toasts (notify q) =
             toasts (notify p) ++ [mkToast (toastId (notify p) + 1) msg error]).
Proof.
  unfold fetchList, fetchList_begin, fetchList_end, pushToast, nextToastId,
    setIsLoading, setItems, setListTotal, setToasts.
  split; [|split].
  - intros [response|msg]; step; by cbn.
  - intros response. step. by cbn.
  - intros msg. step. by cbn.
Qed.

(** *** Upvotes *)

Lemma toggleItem_twice feedbackId item :
  item_consistent item ->
  toggleItem feedbackId (toggleItem feedbackId item) = item
  /\ item_consistent (toggleItem feedbackId item).
Proof.
  intros [Hpos Hflag]. unfold toggleItem, item_consistent.
  destruct item as [i ty ti de st pr up fl cc]. simpl in *.
  destruct (String.eqb_spec i feedbackId) as [->|Hne]; simpl.
  - rewrite String.eqb_refl. simpl. destruct fl; simpl.
    + specialize (Hflag eq_refl). split; [f_equal; lia|split; [lia|done]].
    + split; [f_equal; lia|split; lia].
  - destruct (String.eqb_spec i feedbackId); [done|]. simpl. done.
Qed.

(** Voting twice on an item restores the list: the optimistic patch is
    its own inverse on items whose count is not negative and is at
    least 1 when the viewer has voted, and it keeps items that way. *)
Theorem double_vote_restores (p : Page) (feedbackId : string) (u : User) :
  user p = Some u ->
  Forall item_consistent (items (data p)) ->
  let once := exec (handleUpvote_begin feedbackId) p in
  let twice := exec (handleUpvote_begin feedbackId) once in
  Forall item_consistent (items (data once))
  /\ items (data twice) = items (data p).
Proof.
  intros Hu Hall once twice. subst twice once.
  unfold handleUpvote_begin, setItems, setUpvoteLoadingId. step.
  rewrite Hu. step. cbn. rewrite Hu. step. cbn.
  induction Hall as [|item l Hi _ [IH1 IH2]]; simpl; [done|].
  destruct (toggleItem_twice feedbackId item Hi) as [-> Hc].
  split; [by constructor | by rewrite IH2].
Qed.

Lemma double_vote_restores_witness :
  let it := mkItem "f1" bug_report "Crash" "It crashes" open None 1 true 0 in
  let p := exec (fetchList (Ok (mkListResponse [it] 1)))
                (mounted (Some (mkUser "Ada" "ada@example.org"))) in
  items (data (exec (handleUpvote_begin "f1")
                 (exec (handleUpvote_begin "f1") p))) = [it].
Proof.
  intros it p.
  apply (double_vote_restores p "f1" (mkUser "Ada" "ada@example.org"));
    [reflexivity|].
  repeat constructor; simpl; lia.
Defined.

(** A vote that fails is not undone by the handler: the patched items
    stay on screen, the marker is cleared, an error toast is pushed and
    one list request goes out.  Only the answer to that request puts
    the server's items back; if that request fails too, the patched
    items remain. *)
Theorem failed_vote_reverts_by_refetch
    (p : Page) (feedbackId msg : string) (u : User) :
  user p = Some u ->
  let m := handleUpvote_begin feedbackId
           ≫= fun _ => handleUpvote_end (Err msg) in
  let q := exec m p in
  items (data q) = map (toggleItem feedbackId) (items (data p))
  /\ upvoteLoadingId (discussion q) = None
  /\ requests (trace m p)
     = [toggleFeedbackUpvote feedbackId; listFeedback (queryOf p)]
  /\ toasts (notify q) =
       toasts (notify p) ++ [mkToast (toastId (notify p) + 1) msg error]
  /\ (forall response,
        items (data (exec (fetchList_end (Ok response)) q)) = r_items response)
  /\ (forall msg',
        items (data (exec (fetchList_end (Err msg')) q))
        = map (toggleItem feedbackId) (items (data p))).
Proof.
  intros Hu m q. subst q m.
  unfold handleUpvote_begin, handleUpvote_end, fetchList_begin, fetchList_end,
    pushToast, nextToastId, setItems, setListTotal, setIsLoading,
    setUpvoteLoadingId, setToasts.
  step. rewrite Hu. step. by cbn.
Qed.

Lemma failed_vote_reverts_by_refetch_witness :
  let it := mkItem "f1" bug_report "Crash" "It crashes" open None 5 false 0 in
  let p := exec (fetchList (Ok (mkListResponse [it] 1)))
                (mounted (Some (mkUser "Ada" "ada@example.org"))) in
  let q := exec (handleUpvote_begin "f1"
                 ≫= fun _ => handleUpvote_end (Err "500")) p in
  map upvotes (items (data q)) = [6]
  /\ map upvotes (items (data (exec (fetchList_end
                                       (Ok (mkListResponse [it] 1))) q))) = [5].
Proof.
  intros it p q.
  destruct (failed_vote_reverts_by_refetch p "f1" "500"
              (mkUser "Ada" "ada@example.org") eq_refl)
    as (H1 & _ & _ & _ & H5 & _).
  split.
  - subst q. by rewrite H1.
  - subst q. by rewrite H5.
Defined.

(** The marker of a vote in flight is one id for the whole page: a
    vote on a second item takes the marker over, so the button of the
    first item is enabled again while its request is still in flight,
    and when either request ends the marker is cleared for both. *)
Theorem upvote_marker_is_shared (p : Page) (a b : string) (u : User) :
  user p = Some u -> a <> b ->
  let m := handleUpvote_begin a ≫= fun _ => handleUpvote_begin b in
  let q := exec m p in
  requests (trace m p) = [toggleFeedbackUpvote a; toggleFeedbackUpvote b]
  /\ upvoteDisabled (exec (handleUpvote_begin a) p) a = true
  /\ upvoteDisabled q a = false
  /\ upvoteDisabled q b = true
  /\ (forall r, upvoteDisabled (exec (handleUpvote_end r) q) b = false).
Proof.
  intros Hu Hne m q. subst q m.
  unfold handleUpvote_begin, handleUpvote_end, fetchList_begin,
    fetchSummary_begin, pushToast, nextToastId, setItems, setIsLoading,
    setUpvoteLoadingId, setToasts, upvoteDisabled.
  step. rewrite Hu. step. cbn. rewrite Hu. step. cbn.
  split; [done|]. split; [by apply bool_decide_eq_true_2|].
  split; [apply bool_decide_eq_false_2; congruence|].
  split; [by apply bool_decide_eq_true_2|].
  intros [[]|msg]; step; by cbn.
Qed.

Lemma upvote_marker_is_shared_witness :
  let p := mounted (Some (mkUser "Ada" "ada@example.org")) in
  let q := exec (handleUpvote_begin "f1"
                 ≫= fun _ => handleUpvote_begin "f2") p in
  upvoteDisabled q "f1" = false /\ upvoteDisabled q "f2" = true.
Proof.
  intros p q.
  destruct (upvote_marker_is_shared p "f1" "f2"
              (mkUser "Ada" "ada@example.org") eq_refl)
    as (_ & _ & H3 & H4 & _); [discriminate|].
  split; [exact H3 | exact H4].
Defined.

(** *** Comment threads *)

Lemma toggle_expand_uncached u f d ex cs dr cl ul n c i :
  ex <> Some i -> cs !! i = None ->
  toggleComments_begin i (mkPage u f d (mkDiscussion ex cs dr cl ul) n c)
  = (true, mkPage u f d (mkDiscussion (Some i) cs dr cl ul) n c,
     [Update v_expandedId; Request (getFeedbackComments i)]).
Proof.
  intros Hex Hc. unfold toggleComments_begin, setExpandedId. step. simpl.
  rewrite (bool_decide_eq_false_2 _ Hex). step. simpl. rewrite Hc. by step.
Qed.

Lemma toggle_expand_cached u f d ex cs dr cl ul n c i its :
  ex <> Some i -> cs !! i = Some its ->
  toggleComments_begin i (mkPage u f d (mkDiscussion ex cs dr cl ul) n c)
  = (false, mkPage u f d (mkDiscussion (Some i) cs dr cl ul) n c,
     [Update v_expandedId]).
Proof.
  intros Hex Hc. unfold toggleComments_begin, setExpandedId. step. simpl.
  rewrite (bool_decide_eq_false_2 _ Hex). step. simpl. rewrite Hc. by step.
Qed.

Lemma toggle_collapse u f d cs dr cl ul n c i :
  toggleComments_begin i (mkPage u f d (mkDiscussion (Some i) cs dr cl ul) n c)
  = (false, mkPage u f d (mkDiscussion None cs dr cl ul) n c,
     [Update v_expandedId]).
Proof.
  unfold toggleComments_begin, setExpandedId. step. simpl.
  rewrite (bool_decide_eq_true_2 (Some i = Some i)) by done. by step.
Qed.

(** Comments are fetched once per item: the first expansion sends the
    request and the answer, an empty list included, is cached;
    collapsing and expanding again sends nothing and shows the cached
    list.  After a failed fetch nothing is cached and the thread stays
    open. *)
Theorem comments_fetched_once
    (p : Page) (feedbackId : string) (its : list FeedbackComment) :
  expandedId (discussion p) <> Some feedbackId ->
  commentsById (discussion p) !! feedbackId = None ->
  let expand := toggleComments_begin feedbackId in
  let q1 := exec expand p in
  let q2 := exec (toggleComments_end feedbackId (Ok its)) q1 in
  let q3 := exec expand q2 in
  let q4 := exec expand q3 in
  (requests (trace expand p) = [getFeedbackComments feedbackId]
   /\ expandedId (discussion q1) = Some feedbackId)
  /\ commentsById (discussion q2) !! feedbackId = Some its
  /\ (requests (trace expand q2) = [] /\ expandedId (discussion q3) = None)
  /\ (requests (trace expand q3) = []
      /\ expandedId (discussion q4) = Some feedbackId
      /\ commentsById (discussion q4) !! feedbackId = Some its)
  /\ (forall msg,
        let q := exec (toggleComments_end feedbackId (Err msg)) q1 in
        commentsById (discussion q) !! feedbackId = None
        /\ expandedId (discussion q) = Some feedbackId).
Proof.
  intros Hexp Hnone expand q1 q2 q3 q4. subst q4 q3 q2 q1 expand.
  destruct p as [u f d [ex cs dr cl ul] n c]. simpl in Hexp, Hnone.
  unfold exec, trace.
  rewrite (toggle_expand_uncached u f d ex cs dr cl ul n c feedbackId Hexp Hnone).
  cbv beta iota delta [fst snd].
  assert (Hend : toggleComments_end feedbackId (Ok its)
            (mkPage u f d (mkDiscussion (Some feedbackId) cs dr cl ul) n c)
          = (tt, mkPage u f d
                   (mkDiscussion (Some feedbackId) (<[feedbackId := its]> cs)
                                 dr cl ul) n c,
             [Update v_commentsById])) by reflexivity.
  rewrite Hend. cbv beta iota delta [fst snd].
  rewrite toggle_collapse. cbv beta iota delta [fst snd].
  rewrite (toggle_expand_cached u f d None (<[feedbackId := its]> cs)
             dr cl ul n c feedbackId its) by (done || apply lookup_insert_eq).
  cbv beta iota delta [fst snd]. simpl.
  rewrite lookup_insert_eq. repeat split; try done.
Qed.

Lemma comments_fetched_once_witness :
  let expand := toggleComments_begin "f1" in
  let q2 := exec (expand ≫= fun _ => toggleComments_end "f1" (Ok []))
                 (mounted None) in
  commentsById (discussion q2) !! "f1" = Some []
  /\ requests (trace expand (exec expand q2)) = [].
Proof.
  intros expand q2.
  destruct (comments_fetched_once (mounted None) "f1" [])
    as (_ & H2 & _ & (H4 & _) & _); [done | done |].
  split; [exact H2 | exact H4].
Defined.

Lemma commentDraft_default p i :
  commentDraft p i = default "" (commentDrafts (discussion p) !! i).
Proof.
  unfold commentDraft. destruct (_ !! i) as [[|c d]|]; reflexivity.
Qed.

(** What is posted is never blank and never padded: every comment the
    handler sends is for the item asked for, is the trimmed draft of
    that item, is not empty, and carries the name of the user if there
    is one with a name. *)
Theorem posted_comment_is_trimmed
    (p : Page) (feedbackId : string) (added : Result unit)
    (fetched : Result (list FeedbackComment)) (listed : Result ListResponse)
    (feedbackId' c : string) (n : option string) :
  addFeedbackComment feedbackId' c n
    ∈ requests (trace (handleSubmitComment feedbackId added fetched listed) p) ->
  feedbackId' = feedbackId
  /\ c = Js.trim (commentDraft p feedbackId)
  /\ c <> "" /\ Js.trim c = c
  /\ Js.length c <= Js.length (commentDraft p feedbackId)
  /\ n = userName p.
Proof.
  rewrite commentDraft_default.
  unfold handleSubmitComment, fetchList, fetchList_begin, fetchList_end,
    pushToast, nextToastId, setCommentLoadingId, setCommentsById,
    setCommentDrafts, setIsLoading, setItems, setListTotal, setToasts.
  step.
  set (text := Js.trim (default "" (commentDrafts (discussion p) !! feedbackId))).
  assert (Hlen : Js.length text
                 <= Js.length (default "" (commentDrafts (discussion p)
                                             !! feedbackId)))
    by apply JsFacts.trim_length.
  assert (Hidem : Js.trim text = text) by apply JsFacts.trim_idem.
  destruct text as [|ch t] eqn:E; simpl.
  { step. intros H. by apply elem_of_nil in H. }
  intros H.
  assert (Hhead : addFeedbackComment feedbackId' c n
                  = addFeedbackComment feedbackId (String ch t) (userName p)).
  { destruct added as [[]|?]; [destruct fetched as [?|?];
                                [destruct listed as [?|?]|]|];
      step; cbn in H;
      repeat (apply elem_of_cons in H as [H|H]; [first [exact H|discriminate]|]);
      by apply elem_of_nil in H. }
  injection Hhead as -> -> ->. done.
Qed.

Lemma posted_comment_is_trimmed_witness :
  let p := exec (onCommentDraftChange "f1" "  Same here ") (mounted None) in
  let m := handleSubmitComment "f1" (Ok tt) (Err "x") (Err "y") in
  addFeedbackComment "f1" "Same here" None ∈ requests (trace m p)
  /\ Js.trim "Same here" = "Same here".
Proof.
  intros p m.
  assert (H : addFeedbackComment "f1" "Same here" None ∈ requests (trace m p))
    by (apply (bool_decide_unpack _); by vm_compute).
  split; [exact H|].
  by destruct (posted_comment_is_trimmed p "f1" (Ok tt) (Err "x") (Err "y")
                 "f1" "Same here" None H) as (_ & _ & _ & ? & _).
Defined.

(** The keyboard path has no guard for a post in flight: while the
    Post button of an item is disabled because its comment is being
    posted, Ctrl+Enter in the box sends the same comment again. *)
Theorem ctrl_enter_ignores_in_flight
    (p : Page) (feedbackId : string) (added : Result unit)
    (fetched : Result (list FeedbackComment)) (listed : Result ListResponse) :
  commentLoadingId (discussion p) = Some feedbackId ->
  Js.trim (commentDraft p feedbackId) <> "" ->
  postDisabled p feedbackId = true
  /\ exists rest,
       requests (trace (onCommentKeyDown false true "Enter" feedbackId
                          added fetched listed) p)
       = addFeedbackComment feedbackId (Js.trim (commentDraft p feedbackId))
                            (userName p) :: rest.
Proof.
  intros Hload Hdraft. split.
  { unfold postDisabled. by rewrite (bool_decide_eq_true_2 _ Hload). }
  rewrite commentDraft_default in *.
  unfold onCommentKeyDown. simpl.
  unfold handleSubmitComment, fetchList, fetchList_begin, fetchList_end,
    pushToast, nextToastId, setCommentLoadingId, setCommentsById,
    setCommentDrafts, setIsLoading, setItems, setListTotal, setToasts.
  step.
  destruct (Js.trim (default "" (commentDrafts (discussion p) !! feedbackId)))
    as [|ch t] eqn:E; [done|]. simpl.
  destruct added as [[]|?]; [destruct fetched as [?|?];
                              [destruct listed as [?|?]|]|];
    step; cbn; eexists; reflexivity.
Qed.

Lemma ctrl_enter_ignores_in_flight_witness :
  let p := exec (onCommentDraftChange "f1" "Same here";;
                 setCommentLoadingId (Some "f1")) (mounted None) in
  postDisabled p "f1" = true
  /\ exists rest,
       requests (trace (onCommentKeyDown false true "Enter" "f1"
                          (Ok tt) (Err "x") (Err "y")) p)
       = addFeedbackComment "f1" "Same here" None :: rest.
Proof.
  intros p.
  apply (ctrl_enter_ignores_in_flight p "f1" (Ok tt) (Err "x") (Err "y"));
    [reflexivity | discriminate].
Defined.

(** *** The submission dialog *)

(** While a submission is in flight the dialog cannot be dismissed by
    Escape, backdrop or close button.  A failed submission leaves the
    dialog open with the server's message, ends the busy state, and
    does nothing to the page; a successful one closes the dialog,
    pushes a toast and asks for the list and then the summary. *)
Theorem submission_outcome
    (d : Dialog) (p : Page) (listed : Result ListResponse)
    (summarised : Result SummaryResponse) :
  showModal d = true ->
  let d1 := handleSubmitFeedback_begin d in
  (onEscape "Escape" d1 = d1 /\ handleOverlayClick true d1 = d1
   /\ onCloseButton d1 = d1 /\ submitError d1 = None)
  /\ (forall msg,
        let r := handleSubmitFeedback_end (Err msg) listed summarised d1 in
        showModal (fst r) = true /\ submitError (fst r) = Some msg
        /\ isSubmitting (fst r) = false
        /\ exec (snd r) p = p /\ trace (snd r) p = []
        /\ showModal (onEscape "Escape" (fst r)) = false)
  /\ (let r := handleSubmitFeedback_end (Ok tt) listed summarised d1 in
      showModal (fst r) = false /\ isSubmitting (fst r) = false
      /\ requests (trace (snd r) p)
         = [listFeedback (queryOf p); getFeedbackSummary]
      /\ exists rest,
           toasts (notify (exec (snd r) p))
           = toasts (notify p)
             ++ mkToast (toastId (notify p) + 1)
                        "Feedback submitted — thank you!" success :: rest).
Proof.
  intros Hshow d1. subst d1. destruct d as [sh ty sub er]. simpl in *.
  subst sh. split; [done|]. split; [done|].
  unfold fetchList, fetchList_begin, fetchList_end, fetchSummary_begin,
    fetchSummary_end, pushToast, nextToastId, setIsLoading, setItems,
    setListTotal, setSummary, setToasts.
  destruct listed as [?|?], summarised as [?|?]; step; cbn;
    (split; [done|]); (split; [done|]); (split; [done|]);
    eexists; try reflexivity.
  all: rewrite <- app_assoc; reflexivity.
Qed.

Lemma submission_outcome_witness :
  let d := handleOpenModal bug_report initialDialog in
  let r := handleSubmitFeedback_end (Err "422 title too short")
             (Err "") (Err "") (handleSubmitFeedback_begin d) in
  showModal (fst r) = true /\ submitError (fst r) = Some "422 title too short".
Proof.
  intros d r.
  destruct (submission_outcome d (mounted None) (Err "") (Err "") eq_refl)
    as (_ & H & _).
  destruct (H "422 title too short") as (H1 & H2 & _).
  split; [exact H1 | exact H2].
Defined.

(** *** Seeding from the query string *)



(** *** Deep links *)

(** An item named in the query string is shown expanded, but its
    comments are not asked for: the thread shows no comments, the
    first click on its toggle collapses it without a request, and only
    the click after that fetches the comments. *)
Theorem deep_link_expands_without_comments (u : option User) (i : string) :
  i <> "" ->
  let m := mountFocused (Some i) in
  let p := exec m (initial u) in
  let toggle := toggleComments_begin i in
  requests (trace m (initial u))
    = [getFeedbackSummary; listFeedback (queryOf (initial u))]
  /\ expandedId (discussion p) = Some i
  /\ commentsShown p i = []
  /\ (requests (trace toggle p) = []
      /\ expandedId (discussion (exec toggle p)) = None)
  /\ requests (trace toggle (exec toggle p)) = [getFeedbackComments i].
Proof.
  intros Hi m p toggle. subst toggle p m.
  unfold mountFocused, mount, armDebounce, fetchSummary_begin, fetchList_begin,
    setIsLoading, setExpandedId, initial.
  destruct i as [|ch t]; [done|]. cbn [Js.truthy]. step. unfold exec, trace.
  unfold on_clock, on_data, on_discussion, on_filters.
  cbn [user filters data discussion notify clock
       items summary listTotal isLoading
       expandedId commentsById commentDrafts commentLoadingId upvoteLoadingId
       now debounce].
  rewrite toggle_collapse. cbv beta iota delta [fst snd].
  rewrite toggle_expand_uncached by done.
  cbv beta iota delta [fst snd]. by cbn.
Qed.

Lemma deep_link_expands_without_comments_witness :
  let p := exec (mountFocused (Some "f42")) (initial None) in
  expandedId (discussion p) = Some "f42"
  /\ requests (trace (toggleComments_begin "f42") p) = [].
Proof.
  intros p.
  destruct (deep_link_expands_without_comments None "f42")
    as (_ & H2 & _ & (H4 & _) & _); [discriminate|].
  split; [exact H2 | exact H4].
Defined.

(** *** Drafts *)

(** Every item has its own draft: typing into one changes no other,
    expanding and collapsing threads changes none, and a comment that
    was posted clears the draft of its item only. *)
Theorem drafts_are_per_item (p : Page) (a v : string) :
  let q := exec (onCommentDraftChange a v) p in
  commentDraft q a = v
  /\ (forall b, b <> a -> commentDraft q b = commentDraft p b)
  /\ (forall i b, commentDraft (exec (toggleComments_begin i) q) b
                  = commentDraft q b)
  /\ (forall its listed b,
        let r := exec (handleSubmitComment a (Ok tt) (Ok its) listed) q in
        (b <> a -> commentDraft r b = commentDraft q b)
        /\ (Js.trim v <> "" -> commentDraft r a = "")).
Proof.
  intros q. subst q.
  destruct p as [u f d [ex cs dr cl ul] n c].
  unfold onCommentDraftChange, setCommentDrafts. step.
  unfold on_discussion, commentDraft. simpl.
  split; [|split; [|split]].
  - rewrite lookup_insert_eq. by destruct v.
  - intros b Hb. by rewrite lookup_insert_ne.
  - intros i b. unfold toggleComments_begin, setExpandedId. step. simpl.
    destruct (bool_decide _); step; simpl; [done|].
    destruct (cs !! i); step; by simpl.
  - intros its listed b.
    unfold handleSubmitComment, fetchList, fetchList_begin, fetchList_end,
      pushToast, nextToastId, setCommentLoadingId, setCommentsById,
      setCommentDrafts, setIsLoading, setItems, setListTotal, setToasts.
    step. simpl. rewrite lookup_insert_eq. simpl.
    destruct (Js.trim v) as [|ch t] eqn:E; simpl.
    + step. simpl. done.
    + destruct listed as [?|?]; step; simpl; (split; [|intros _]).
      all: try (intros Hb; by rewrite !lookup_insert_ne).
      all: by rewrite lookup_insert_eq.
Qed.

End FeedbackMore.

(** ** Submission form *)

Module SubmitMore.

Import Feedback FeedbackUi SubmitFeedbackModal SubmitPayload.

Lemma truthy_nonempty s : Js.truthy s = true <-> s <> "".
Proof. destruct s; simpl; split; done. Qed.

Lemma handleSubmit_Some b f payload :
  handleSubmit b f = Some payload ->
  canSubmit b f = true
  /\ payload = mkPayload
      (formType f) (title f) (description f)
      (if bool_decide (formType f = model_request)
       then Some (modelName f) else None)
      (if bool_decide (formType f = model_request)
       then Some (modelProvider f) else None)
      (orUndefined (email f)) (orUndefined (name f))
      (if (0 <? size (collectMetadata (meta f)))%nat
       then Some (collectMetadata (meta f)) else None)
      (if (0 <? length (allAttachments f))%nat
       then Some (allAttachments f) else None)
      (orUndefined (environment f)).
Proof.
  unfold handleSubmit. destruct (canSubmit b f); simpl; [|discriminate].
  by intros [= <-].
Qed.

(** The handler submits exactly when the submit control is enabled.
    The payload carries the type, and title and description as typed,
    untrimmed though they were validated trimmed; the model fields are
    present exactly for a model request; e-mail, name and environment
    are left out when empty. *)
Theorem handleSubmit_gate (isSubmitting : bool) (f : Form) :
  (handleSubmit isSubmitting f = None <-> canSubmit isSubmitting f = false)
  /\ (forall payload, handleSubmit isSubmitting f = Some payload ->
        p_type payload = formType f
        /\ p_title payload = title f
        /\ p_description payload = description f
        /\ 3 <= Js.length (Js.trim (p_title payload))
        /\ 10 <= Js.length (Js.trim (p_description payload))
        /\ (formType f = model_request ->
              model_name payload = Some (modelName f)
              /\ model_provider payload = Some (modelProvider f))
        /\ (formType f <> model_request ->
              model_name payload = None /\ model_provider payload = None)
        /\ (user_email payload = None <-> email f = "")
        /\ (user_name payload = None <-> name f = "")
        /\ (p_environment payload = None <-> environment f = "")
        /\ (forall e, user_email payload = Some e -> e = email f)).
Proof.
  split.
  - unfold handleSubmit. destruct (canSubmit isSubmitting f); simpl; split; done.
  - intros payload H. apply handleSubmit_Some in H as [Hcan ->]. simpl.
    unfold canSubmit in Hcan.
    rewrite !andb_true_iff, !Z.geb_le in Hcan.
    destruct Hcan as [[[_ Ht] Hd] _].
    assert (Hor : forall s, orUndefined s = None <-> s = "")
      by (intros [|? ?]; simpl; split; done).
    split; [done|]. split; [done|]. split; [done|].
    split; [lia|]. split; [lia|].
    split; [by intros ->|].
    split; [intros Hne; by rewrite bool_decide_eq_false_2|].
    split; [apply Hor|]. split; [apply Hor|]. split; [apply Hor|].
    intros e. unfold orUndefined. destruct (Js.truthy _); by intros [= <-].
Qed.

Lemma handleSubmit_gate_witness :
  let f := setDescription "Exporting a report crashes the app"
             (setTitle "  Crash on export " (initial bug_report "" "" "")) in
  exists payload,
    handleSubmit false f = Some payload
    /\ p_title payload = "  Crash on export "
    /\ model_name payload = None.
Proof.
  intros f. eexists. split; [reflexivity|].
  destruct (handleSubmit_gate false f) as [_ H].
  destruct (H _ eq_refl) as (_ & Ht & _ & _ & _ & _ & Hm & _).
  split; [exact Ht|]. by apply Hm.
Defined.

(** The metadata of the payload holds exactly the fields whose value
    is not blank, each with its value trimmed; when every field is
    blank the key is left out altogether. *)
Theorem handleSubmit_metadata (isSubmitting : bool) (f : Form) (payload : Payload) :
  handleSubmit isSubmitting f = Some payload ->
  (forall k v,
     (exists md, metadata payload = Some md /\ md !! k = Some v)
     <-> (exists raw, meta f !! k = Some raw /\ v = Js.trim raw /\ v <> ""))
  /\ (metadata payload = None
      <-> forall k raw, meta f !! k = Some raw -> Js.trim raw = "")
  /\ (forall md, metadata payload = Some md -> md <> ∅).
Proof.
  intros H. apply handleSubmit_Some in H as [_ ->]. simpl.
  set (md := collectMetadata (meta f)).
  assert (Hlook : forall k v,
    md !! k = Some v
    <-> exists raw, meta f !! k = Some raw /\ v = Js.trim raw /\ v <> "").
  { intros k v. subst md. unfold collectMetadata. rewrite lookup_omap.
    destruct (meta f !! k) as [raw|]; simpl.
    - destruct (Js.truthy (Js.trim raw)) eqn:E.
      + apply truthy_nonempty in E. split.
        * intros [= <-]. by exists raw.
        * intros (raw' & [= <-] & -> & _). done.
      + split; [discriminate|]. intros (raw' & [= <-] & -> & Hne).
        apply truthy_nonempty in Hne. congruence.
    - split; [discriminate|]. by intros (raw & ? & _). }
  assert (Hcase : ((0 <? size md)%nat = true /\ md <> ∅)
                  \/ ((0 <? size md)%nat = false /\ md = ∅)).
  { destruct (size md) eqn:Es; simpl.
    - right. split; [done|]. by apply map_size_empty_iff.
    - left. split; [done|]. intros Hempty.
      apply map_size_empty_iff in Hempty. lia. }
  destruct Hcase as [[E Hne]|[E Hempty]]; rewrite E.
  - split; [|split].
    + intros k v. rewrite <- Hlook. split.
      * by intros (md' & [= <-] & Hk).
      * intros Hk. by exists md.
    + split; [discriminate|]. intros Hall. destruct Hne.
      apply map_empty. intros k. destruct (md !! k) as [v|] eqn:Hk; [|done].
      apply Hlook in Hk as (raw & Hraw & -> & Hv).
      destruct Hv. by eapply Hall.
    + by intros md' [= <-].
  - split; [|split].
    + intros k v. rewrite <- Hlook, Hempty, lookup_empty. split.
      * by intros (md' & ? & _).
      * discriminate.
    + split; [|done]. intros _ k raw Hk.
      destruct (Js.trim raw) as [|ch t] eqn:Et; [done|].
      assert (md !! k = Some (String ch t)) as Hin.
      { apply Hlook. exists raw. by rewrite Et. }
      rewrite Hempty, lookup_empty in Hin. discriminate.
    + discriminate.
Qed.

Lemma handleSubmit_metadata_witness :
  let f := updateMeta "severity" ""
             (updateMeta "use_case" "  batch scoring "
                (setModelName "gpt-4o"
                   (setDescription "Please add this model"
                      (setTitle "Add model" (initial model_request "" "" ""))))) in
  exists payload md,
    handleSubmit false f = Some payload
    /\ metadata payload = Some md
    /\ md !! "use_case" = Some "batch scoring".
Proof.
  intros f. eexists.
  destruct (handleSubmit_metadata false f _ eq_refl) as (H & _ & _).
  destruct (proj2 (H "use_case" "batch scoring")) as (md & Hmd & Hk).
  - exists "  batch scoring ". by vm_compute.
  - exists md. split; [reflexivity|]. split; [exact Hmd | exact Hk].
Defined.

(** The attachments of the payload are the uploaded files, followed by
    one link entry when the reference field is not blank; the link has
    the trimmed address as name and path, no id and size 0; with no
    file and a blank reference the key is left out. *)
Theorem handleSubmit_attachments (isSubmitting : bool) (f : Form) (payload : Payload) :
  handleSubmit isSubmitting f = Some payload ->
  let url := Js.trim (referenceUrl f) in
  (url = "" -> fileAttachments f = [] -> attachments payload = None)
  /\ (url = "" -> fileAttachments f <> [] ->
      attachments payload = Some (fileAttachments f))
  /\ (url <> "" ->
      attachments payload
      = Some (fileAttachments f
              ++ [FileUpload.mkMeta "" url "" "link" 0 "link" url]))
  /\ (forall l, attachments payload = Some l ->
        l <> [] /\ (length l <= length (fileAttachments f) + 1)%nat).
Proof.
  intros H url. apply handleSubmit_Some in H as [_ ->]. simpl.
  unfold allAttachments, referenceLink. fold url.
  destruct url as [|ch t] eqn:E; simpl.
  - split; [by intros _ ->|]. split; [|split; [done|]].
    + intros _ Hne. by destruct (fileAttachments f).
    + intros l. destruct (fileAttachments f) as [|a fs]; simpl; [done|].
      intros [= <-]. split; [done|]. simpl. lia.
  - split; [done|]. split; [done|].
    assert (Hpos : (0 <? length (fileAttachments f ++
              [FileUpload.mkMeta "" (String ch t) "" "link" 0 "link"
                 (String ch t)]))%nat = true).
    { rewrite length_app. simpl. apply Nat.ltb_lt. lia. }
    rewrite Hpos. split; [done|].
    intros l [= <-]. split; [by destruct (fileAttachments f)|].
    rewrite length_app. simpl. lia.
Qed.

Lemma handleSubmit_attachments_witness :
  let f := setReferenceUrl " https://example.org/log "
             (setDescription "Exporting a report crashes the app"
                (setTitle "Crash on export" (initial bug_report "" "" ""))) in
  exists payload,
    handleSubmit false f = Some payload
    /\ map FileUpload.name (default [] (attachments payload))
       = ["https://example.org/log"].
Proof.
  intros f. eexists. split; [reflexivity|].
  destruct (handleSubmit_attachments false f _ eq_refl) as (_ & _ & H & _).
  rewrite H; [reflexivity | discriminate].
Defined.

(** Title and description are cut as they are typed: the stored text
    is the typed text up to 255, respectively 5000, code units, so it
    is never longer than that and shorter input is stored unchanged. *)
Theorem input_is_truncated (v : string) (f : Form) :
  let t := title (onTitleChange v f) in
  let d := description (onDescriptionChange v f) in
  (Js.length t = Z.min 255 (Js.length v) /\ String.prefix t v = true
   /\ (Js.length v <= 255 -> t = v))
  /\ (Js.length d = Z.min 5000 (Js.length v) /\ String.prefix d v = true
      /\ (Js.length v <= 5000 -> d = v)).
Proof.
  unfold onTitleChange, onDescriptionChange, setTitle, setDescription,
    TITLE_MAX, DESC_MAX.
  cbn [title description].
  split; (split; [rewrite JsFacts.sliceTo_length; lia|]);
    (split; [apply JsFacts.sliceTo_prefix|]);
    intros H; apply JsFacts.sliceTo_all; unfold Js.length in H; lia.
Qed.

(** The detected environment is always one of the values the selector
    offers, never "staging"; an API address on the loopback host gives
    "local" whatever the build mode. *)
Theorem detectEnvironment_selectable
    (hasWindow : bool) (nodeEnv : string) (apiUrl : option string) :
  detectEnvironment hasWindow nodeEnv apiUrl ∈ environmentOptions
  /\ detectEnvironment hasWindow nodeEnv apiUrl <> "staging"
  /\ (forall u, hasWindow = true -> apiUrl = Some u ->
        contains "localhost" u = true \/ contains "127.0.0.1" u = true ->
        detectEnvironment hasWindow nodeEnv apiUrl = "local")
  /\ (hasWindow = false -> detectEnvironment hasWindow nodeEnv apiUrl = "").
Proof.
  unfold detectEnvironment, environmentOptions.
  split; [|split; [|split]].
  - destruct hasWindow; simpl; [|set_solver].
    destruct (_ || _); [set_solver|].
    destruct (String.eqb nodeEnv "production"); [set_solver|].
    destruct (String.eqb nodeEnv "development"); set_solver.
  - destruct hasWindow; simpl; [|done].
    destruct (_ || _); [done|].
    destruct (String.eqb nodeEnv "production"); [done|].
    by destruct (String.eqb nodeEnv "development").
  - intros u -> -> Hc. simpl.
    assert (Js.truthy u = true) as ->.
    { destruct u; [|done]. by destruct Hc. }
    destruct Hc as [-> | ->]; [done|]. by rewrite orb_true_r.
  - by intros ->.
Qed.

Lemma detectEnvironment_selectable_witness :
  detectEnvironment true "production" (Some "http://127.0.0.1:8000/api")
  = "local".
Proof.
  destruct (detectEnvironment_selectable true "production"
              (Some "http://127.0.0.1:8000/api")) as (_ & _ & H & _).
  apply (H "http://127.0.0.1:8000/api"); [done | done |]. right. reflexivity.
Defined.

End SubmitMore.
